(** * Feature_Selection.py: the adjustment system and its history store

    A shallow embedding of [SimpleAdjustmentSystem] (src/Feature_Selection.py)
    and the properties its specification states about it.

    Numbers: a float64 is modelled by an exact rational ([Q]) or NaN (what
    [pandas.read_excel] gives a blank cell); the infinities are outside the
    model.  Python's two-argument [min] and [max] and [round] are written
    out as the interpreter evaluates them, including the [int] results [0]
    and [1] that the clamping literals produce. *)

From Stdlib Require Import ZArith QArith Qround Lqa Lia.
From stdpp Require Import gmap strings list sorting.

Open Scope string_scope.
Open Scope list_scope.
Open Scope nat_scope.

(** ** Python numbers *)

Module Py.

Inductive number :=
  | PyInt (n : Z)
  | PyFloat (x : Q)
  | PyNaN.

Definition value (a : number) : option Q :=
  match a with
  | PyInt n => Some (inject_Z n)
  | PyFloat x => Some x
  | PyNaN => None
  end.

Definition Qltb (x y : Q) : bool := negb (Qle_bool y x).

(** [a < b] on numbers: false as soon as one of them is NaN. *)
Definition lt (a b : number) : bool :=
  match value a, value b with
  | Some x, Some y => Qltb x y
  | _, _ => false
  end.

(** [a + r] and [a - r] for a float [r]: a float. *)
Definition add (a : number) (r : Q) : number :=
  match value a with
  | Some x => PyFloat (x + r)
  | None => PyNaN
  end.

Definition sub (a : number) (r : Q) : number :=
  match value a with
  | Some x => PyFloat (x - r)
  | None => PyNaN
  end.

(** [min(a, b)]: the first argument unless the second is strictly smaller. *)
Definition min (a b : number) : number := if lt b a then b else a.

(** [max(a, b)]: the first argument unless the second is strictly larger. *)
Definition max (a b : number) : number := if lt a b then b else a.

Definition pow10 (ndigits : nat) : positive := Z.to_pos (10 ^ Z.of_nat ndigits).

(** Nearest integer, halves to the even neighbour. *)
Definition round_half_even (x : Q) : Z :=
  let f := Qfloor x in
  match (x - inject_Z f ?= 1 # 2)%Q with
  | Lt => f
  | Gt => (f + 1)%Z
  | Eq => if Z.even f then f else (f + 1)%Z
  end.

(** [round(a, ndigits)]: an [int] is returned as it is (for
    [ndigits >= 0]), a float is rounded at the [ndigits]-th decimal. *)
Definition round (a : number) (ndigits : nat) : number :=
  match a with
  | PyInt n => PyInt n
  | PyFloat x =>
      let s := pow10 ndigits in
      PyFloat (Qmake (round_half_even (x * inject_Z (Zpos s))) s)
  | PyNaN => PyNaN
  end.

End Py.

(** ** Exceptions and the state of the program *)

Inductive exn :=
  | KeyError
  | TypeError
  | ValueError
  | ProgrammingError            (* sqlite3: operation on a closed database *)
  | OperationalError (msg : string)   (* sqlite3: the engine refused the statement *)
  | NameError.                  (* a location without an object; no Python name is ever so *)

Inductive Result (A : Type) :=
  | Ok (a : A)
  | Raise (e : exn).
Arguments Ok {A} a.
Arguments Raise {A} e.

(** A cell of a table: a float64, NaN included, or a string (an identifier
    column). *)
Inductive cell :=
  | Num (x : Q)
  | NaN
  | Text (s : string).

Definition is_text (c : cell) : bool :=
  match c with Text _ => true | _ => false end.

(** The float a cell holds, if it holds one. *)
Definition float_of_cell (c : cell) : option Py.number :=
  match c with
  | Num x => Some (Py.PyFloat x)
  | NaN => Some Py.PyNaN
  | Text _ => None
  end.

(** The float a float64 column stores for a number. *)
Definition cell_of_number (a : Py.number) : cell :=
  match a with
  | Py.PyInt n => Num (inject_Z n)
  | Py.PyFloat x => Num x
  | Py.PyNaN => NaN
  end.

(** A [pandas.DataFrame] with a [RangeIndex]: the number of rows and the
    columns in order, each a label and its values. *)
Record DataFrame := {
  nrows : nat;
  columns : list (string * list cell)
}.

(** A row of the [adjustments] table (lines 19-24). *)
Record Row := {
  id : Z;
  random_value : Q;
  operation : string;
  timestamp : string
}.

(** The sqlite connection [self.conn] with the database behind it: the rows
    of [adjustments] in rowid order and the counter that AUTOINCREMENT keeps
    in [sqlite_sequence]. *)
Record Conn := {
  closed : bool;
  adjustments : list Row;
  sqlite_sequence : Z
}.

(** The heap of data frames (Python objects are referred to by location)
    and the connection of the system. *)
Record State := {
  frames : gmap nat DataFrame;
  conn : Conn
}.

Definition set_frames (f : gmap nat DataFrame) (st : State) : State :=
  {| frames := f; conn := conn st |}.

Definition set_conn (c : Conn) (st : State) : State :=
  {| frames := frames st; conn := c |}.

(** What a call takes from outside the program: the generator's next unit
    sample and index, the clock, and whether the database engine fails the
    write. *)
Record Oracle := {
  unit_sample : Q;
  choice_index : nat;
  now_isoformat : string;
  io_error : option string
}.

(** State and exceptions over a state [S]: a raised exception keeps the
    state reached. *)
Definition StateExn (S A : Type) : Type := S → Result A * S.

#[global] Instance StateExn_ret {S} : MRet (StateExn S) := λ A a st, (Ok a, st).
#[global] Instance StateExn_bind {S} : MBind (StateExn S) := λ A B f m st,
  match m st with
  | (Ok a, st') => f a st'
  | (Raise e, st') => (Raise e, st')
  end.

(** The program runs on [State]. *)
Abbreviation M := (StateExn State).

Definition lift {S A} (r : Result A) : StateExn S A := λ st, (r, st).

(** [for x in l: body(x)] *)
Fixpoint for_ {S A} (l : list A) (body : A → StateExn S unit) : StateExn S unit :=
  match l with
  | [] => mret tt
  | x :: l' => body x ≫= λ _, for_ l' body
  end.

(** ** pandas *)

(** The columns carrying label [col]. *)
Definition labelled (col : string) (d : DataFrame) : list (string * list cell) :=
  filter (λ c, c.1 = col) (columns d).

(** What [df.loc[idx, col]] evaluates to: a scalar when one column carries
    the label, a [Series] when several do. *)
Inductive selection :=
  | Scalar (c : cell)
  | Series (cs : list cell).

(** [df.loc[idx, col]] *)
Definition loc_get (d : DataFrame) (idx : nat) (col : string) : Result selection :=
  match labelled col d with
  | [] => Raise KeyError
  | [c] =>
      match c.2 !! idx with
      | Some v => Ok (Scalar v)
      | None => Raise KeyError
      end
  | cs => Ok (Series (omap (λ c, c.2 !! idx) cs))
  end.

(** [df.loc[idx, col] = v] on labels the frame has (the setter is reached
    only after [loc_get] found them). *)
Definition loc_set (d : DataFrame) (idx : nat) (col : string) (v : cell) : DataFrame :=
  {| nrows := nrows d;
     columns := (λ c, if decide (c.1 = col) then (c.1, <[idx := v]> (c.2)) else c) <$> columns d |}.

(** [df.copy()]: a new object with the same contents. *)
Definition df_copy (df : nat) : M nat := λ st,
  match frames st !! df with
  | Some d =>
      let l := fresh (dom (frames st)) in
      (Ok l, set_frames (<[l := d]> (frames st)) st)
  | None => (Raise NameError, st)
  end.

Definition df_read {A} (df : nat) (f : DataFrame → Result A) : M A := λ st,
  match frames st !! df with
  | Some d => (f d, st)
  | None => (Raise NameError, st)
  end.

Definition df_write (df : nat) (f : DataFrame → DataFrame) : M unit := λ st,
  match frames st !! df with
  | Some d => (Ok tt, set_frames (<[df := f d]> (frames st)) st)
  | None => (Raise NameError, st)
  end.

(** ** numpy.random *)

(** [np.random.uniform(low, high)] on the generator's unit sample [u]. *)
Definition np_random_uniform (low high u : Q) : Q := low + (high - low) * u.

(** [np.random.choice(a)] on the generator's index [k]. *)
Definition np_random_choice (a : list string) (k : nat) : string :=
  nth (k mod length a) a "".

(** ** sqlite3 *)

Definition max_rowid (rows : list Row) : Z :=
  foldr (λ r m, Z.max (id r) m) 0%Z rows.

(** The rowid an AUTOINCREMENT column gives the next row: one more than the
    largest rowid the table has ever held.  Rowids are not bounded here;
    sqlite refuses the insert once 2^63-1 has been used. *)
Definition next_rowid (c : Conn) : Z :=
  (Z.max (max_rowid (adjustments c)) (sqlite_sequence c) + 1)%Z.

(** [conn.execute('INSERT INTO adjustments (random_value, operation,
    timestamp) VALUES (?, ?, ?)', ...)] *)
Definition execute_insert (o : Oracle) (value : Q) (op ts : string) : M unit := λ st,
  let c := conn st in
  if closed c then (Raise ProgrammingError, st)
  else match io_error o with
       | Some msg => (Raise (OperationalError msg), st)
       | None =>
           let r := {| id := next_rowid c; random_value := value;
                       operation := op; timestamp := ts |} in
           (Ok tt, set_conn {| closed := false;
                               adjustments := adjustments c ++ [r];
                               sqlite_sequence := id r |} st)
       end.

(** [with self.conn: body]: commit when the body returns, roll the database
    back and re-raise when it raises. *)
Definition with_conn {A} (body : M A) : M A := λ st,
  match body st with
  | (Ok a, st') => (Ok a, st')
  | (Raise e, st') =>
      (Raise e, set_conn {| closed := closed (conn st');
                            adjustments := adjustments (conn st);
                            sqlite_sequence := sqlite_sequence (conn st) |} st')
  end.

(** [ORDER BY timestamp DESC]: the rows are taken in rowid order and each is
    put in front of the rows already placed that are not strictly later;
    the statement names no second key. *)
Fixpoint insert_desc (r : Row) (l : list Row) : list Row :=
  match l with
  | [] => [r]
  | h :: t =>
      if String.ltb (timestamp r) (timestamp h) then h :: insert_desc r t
      else r :: h :: t
  end.

Definition order_by_timestamp_desc (rows : list Row) : list Row :=
  foldr insert_desc [] rows.

(** ** SimpleAdjustmentSystem *)

(** [create_table] (lines 15-25): CREATE TABLE IF NOT EXISTS on the database
    file, which holds the table already or not. *)
Definition create_table (file : option (list Row * Z)) : list Row * Z :=
  match file with
  | Some t => t
  | None => ([], 0%Z)
  end.

(** [__init__] (lines 10-13) *)
Definition init (file : option (list Row * Z)) : Conn :=
  let t := create_table file in
  {| closed := false; adjustments := t.1; sqlite_sequence := t.2 |}.

(** [generate_and_store_random] (lines 27-41) *)
Definition generate_and_store_random (o : Oracle) : M (Q * string) :=
  let random_value := np_random_uniform (1 # 100) (1 # 10) (unit_sample o) in
  let operation := np_random_choice ["+"; "-"] (choice_index o) in
  _ ← with_conn (execute_insert o random_value operation (now_isoformat o));
  mret (random_value, operation).

(** Lines 57-64 on what line 54 read: the operation, the clamp with its
    [int] literals, the rounding, and the float the column stores.  A string
    cannot be added to a float; a [Series] passes the arithmetic when it
    holds no string and then has no truth value for [min]. *)
Definition adjust_value (current_value : selection) (random_value : Q)
    (operation : string) : Result cell :=
  match current_value with
  | Scalar c =>
      match float_of_cell c with
      | Some current_value =>
          let new_value :=
            if decide (operation = "+") then Py.add current_value random_value
            else Py.sub current_value random_value in
          let new_value := Py.max (Py.PyInt 0) (Py.min (Py.PyInt 1) new_value) in
          Ok (cell_of_number (Py.round new_value 5))
      | None => Raise TypeError
      end
  | Series cs => if existsb is_text cs then Raise TypeError else Raise ValueError
  end.

(** Lines 54-64: one cell of the copy, from the cell of [df]. *)
Definition adjust_cell (df adjusted_df : nat) (random_value : Q)
    (operation col : string) (idx : nat) : M unit :=
  current_value ← df_read df (λ d, loc_get d idx col);
  new_value ← lift (adjust_value current_value random_value operation);
  df_write adjusted_df (λ d, loc_set d idx col new_value).

(** [adjust_dataframe] (lines 43-66) *)
Definition adjust_dataframe (o : Oracle) (df : nat) (selected_features : list string)
    : M (nat * Q * string) :=
  adjusted_df ← df_copy df;
  '(random_value, operation) ← generate_and_store_random o;
  _ ← for_ selected_features (λ col,
        index ← df_read df (λ d, Ok (seq 0 (nrows d)));
        for_ index (adjust_cell df adjusted_df random_value operation col));
  mret (adjusted_df, random_value, operation).

(** [get_adjustment_history] (lines 68-76) *)
Definition get_adjustment_history : M (list Row) := λ st,
  if closed (conn st) then (Raise ProgrammingError, st)
  else (Ok (take 10 (order_by_timestamp_desc (adjustments (conn st)))), st).

(** [close] (lines 78-80) *)
Definition close : M unit := λ st,
  (Ok tt, set_conn {| closed := true;
                      adjustments := adjustments (conn st);
                      sqlite_sequence := sqlite_sequence (conn st) |} st).

(** ** The loop of [adjust_dataframe] seen from the copy

    Lines 52-64 read [df], which they never write, and write
    [adjusted_df]: on the heap they act as [adjust_cells] acts on the copy
    alone. *)

Definition step_cell (d : DataFrame) (random_value : Q) (operation col : string)
    (idx : nat) : StateExn DataFrame unit := λ a,
  match loc_get d idx col with
  | Ok current_value =>
      match adjust_value current_value random_value operation with
      | Ok new_value => (Ok tt, loc_set a idx col new_value)
      | Raise e => (Raise e, a)
      end
  | Raise e => (Raise e, a)
  end.

Definition adjust_cells (d : DataFrame) (random_value : Q) (operation : string)
    (selected_features : list string) : StateExn DataFrame unit :=
  for_ selected_features (λ col,
    for_ (seq 0 (nrows d)) (step_cell d random_value operation col)).

(** The handler of "Apply Random Adjustment" in [main] (lines 151-159): an
    empty selection gets a warning and no call. *)
Definition apply_random_adjustment (o : Oracle) (feature_selection : nat)
    (selected_features : list string) : M (option (nat * Q * string)) :=
  if decide (selected_features = []) then mret None
  else
    r ← adjust_dataframe o feature_selection selected_features;
    mret (Some r).

(** ** The calls a session makes on one system *)

Inductive call :=
  | CallRecord (o : Oracle)
  | CallAdjust (o : Oracle) (df : nat) (selected_features : list string)
  | CallHistory
  | CallClose.

Definition run_call (c : call) (st : State) : State :=
  match c with
  | CallRecord o => (generate_and_store_random o st).2
  | CallAdjust o df sel => (adjust_dataframe o df sel st).2
  | CallHistory => (get_adjustment_history st).2
  | CallClose => (close st).2
  end.

Definition run_calls (cs : list call) (st : State) : State :=
  foldl (λ s c, run_call c s) st cs.

(** What a call draws and what it inserts. *)
Definition drawn_value (o : Oracle) : Q :=
  np_random_uniform (1 # 100) (1 # 10) (unit_sample o).

Definition drawn_operation (o : Oracle) : string :=
  np_random_choice ["+"; "-"] (choice_index o).

Definition new_row (o : Oracle) (c : Conn) : Row :=
  {| id := next_rowid c; random_value := drawn_value o;
     operation := drawn_operation o; timestamp := now_isoformat o |}.

Definition inserted (o : Oracle) (c : Conn) : Conn :=
  {| closed := false; adjustments := adjustments c ++ [new_row o c];
     sqlite_sequence := next_rowid c |}.


(** The cell lines 54-64 write at [(idx, col)] of the copy of [d], when
    they raise nothing. *)
Definition written (d : DataFrame) (random_value : Q) (operation col : string)
    (idx : nat) : option cell :=
  match loc_get d idx col with
  | Ok current_value =>
      match adjust_value current_value random_value operation with
      | Ok new_value => Some new_value
      | Raise _ => None
      end
  | Raise _ => None
  end.

(** [col_rel P g c c']: column [c'] is column [c] with the cells at the
    positions [P] selects replaced by what [g] gives. *)
Definition col_rel (P : string → nat → Prop) (g : string → nat → option cell)
    (c c' : string * list cell) : Prop :=
  c'.1 = c.1 ∧ length c'.2 = length c.2
  ∧ ∀ i x, c.2 !! i = Some x →
      (P c.1 i → c'.2 !! i = g c.1 i) ∧ (¬ P c.1 i → c'.2 !! i = Some x).

(** ** The specification's vocabulary *)

Module Spec.

(** clamp(x, lo, hi) *)
Definition clamp (x lo hi : Q) : Q :=
  if Qlt_le_dec x lo then lo else if Qlt_le_dec hi x then hi else x.

(** sign·magnitude *)
Definition signed (sign : string) (magnitude : Q) : Q :=
  ((if decide (sign = "+") then 1 else -1) * magnitude)%Q.

(** [y] is [x] rounded to [ndigits] decimal digits: a multiple of
    10^-ndigits nearest to [x]. *)
Definition rounded (ndigits : nat) (x y : Q) : Prop :=
  let s := inject_Z (Zpos (Py.pow10 ndigits)) in
  (∃ k : Z, y == inject_Z k / s)%Q
  ∧ (x - (1 # 2) / s <= y)%Q ∧ (y <= x + (1 # 2) / s)%Q.

(** [a] is not older than [b] *)
Definition not_older (a b : Row) : Prop :=
  String.leb (timestamp b) (timestamp a) = true.


(** ids strictly increase with insertion order *)
Definition ids_increasing (rows : list Row) : Prop :=
  StronglySorted Z.lt (id <$> rows).


End Spec.

(** ** Sample inputs *)

Definition sample_frame : DataFrame :=
  {| nrows := 2;
     columns := [("id", [Text "r1"; Text "r2"]);
                 ("f1", [Num (2 # 100); Num (97 # 100)]);
                 ("f2", [Num (1 # 2); Num (1 # 2)])] |}.

Definition sample_state : State :=
  {| frames := {[ 0 := sample_frame ]}; conn := init None |}.

Definition sample_oracle (k : nat) : Oracle :=
  {| unit_sample := 8 # 9; choice_index := k;
     now_isoformat := "2024-05-01T10:00:00.000001"; io_error := None |}.

Definition failing_oracle : Oracle :=
  {| unit_sample := 1 # 2; choice_index := 0;
     now_isoformat := "2024-05-01T10:00:00.000002";
     io_error := Some "database or disk is full" |}.

(** The table of scenario A, and a table with a blank cell. *)
Definition scenario_frame : DataFrame :=
  {| nrows := 1;
     columns := [("id", [Text "r1"]); ("f1", [Num (2 # 100)]); ("f2", [Num (1 # 2)])] |}.

Definition blank_frame : DataFrame :=
  {| nrows := 2; columns := [("id", [Text "r1"; Text "r2"]); ("f1", [NaN; Num (1 # 2)])] |}.

(** The draw forced to magnitude 0.1 and sign "-". *)
Definition forced_oracle : Oracle :=
  {| unit_sample := 1; choice_index := 1;
     now_isoformat := "2024-05-01T10:00:00.000001"; io_error := None |}.

(** A draw at second [n] of a minute. *)
Definition oracle_at (n : nat) : Oracle :=
  {| unit_sample := 1 # 2; choice_index := n;
     now_isoformat :=
       "2024-05-01T10:00:"
       +:+ String (Ascii.ascii_of_nat (48 + n / 10))
             (String (Ascii.ascii_of_nat (48 + n mod 10)) "");
     io_error := None |}.

(** A call on the sample table, and one with an empty selection. *)
Definition sample_run : Result (nat * Q * string) * State :=
  adjust_dataframe (sample_oracle 1) 0 ["f1"] sample_state.

Definition empty_run : Result (nat * Q * string) * State :=
  adjust_dataframe (sample_oracle 0) 0 [] sample_state.

(** The same table at another place of another heap, beside a store that
    holds a row already, and a call there at another time. *)
Definition other_state : State :=
  run_calls [CallRecord (sample_oracle 0)]
    {| frames := {[ 0 := sample_frame; 7 := sample_frame ]}; conn := init None |}.

Definition other_oracle : Oracle :=
  {| unit_sample := 8 # 9; choice_index := 3;
     now_isoformat := "2025-01-01T00:00:00"; io_error := None |}.

Definition other_run : Result (nat * Q * string) * State :=
  adjust_dataframe other_oracle 7 ["f1"] other_state.

(** The sample store closed, and calls made on it afterwards. *)
Definition closed_state : State := (close sample_state).2.

Definition later_calls : list call :=
  [CallRecord (sample_oracle 0); CallAdjust (sample_oracle 1) 0 ["f1"];
   CallHistory; CallClose; CallRecord (sample_oracle 1)].

(** The sample store after one record, and calls made on it afterwards. *)
Definition recorded_state : State :=
  run_calls [CallRecord (sample_oracle 0)] sample_state.

Definition following_calls : list call :=
  [CallAdjust (sample_oracle 1) 0 ["f1"]; CallHistory;
   CallRecord failing_oracle; CallRecord (sample_oracle 1)].


(** ** The loop as one elementwise transform *)

(** What lines 57-64 make of a cell, the cell itself where they raise. *)
Definition adjust_or_keep (random_value : Q) (operation : string) (x : cell) : cell :=
  match adjust_value (Scalar x) random_value operation with
  | Ok new_value => new_value
  | Raise _ => x
  end.

(** The table in which every cell at a row of the index, in a column whose
    label is selected, is adjusted, and every other cell is kept. *)
Definition bulk_adjust (d : DataFrame) (random_value : Q) (operation : string)
    (selected_features : list string) : DataFrame :=
  {| nrows := nrows d;
     columns :=
       (λ c, if decide (c.1 ∈ selected_features)
             then (c.1, imap (λ i x, if decide (i < nrows d)
                                     then adjust_or_keep random_value operation x
                                     else x) c.2)
             else c) <$> columns d |}.

(** The cell at [(idx, col)] is found under one label and holds a float. *)
Definition float_cell (d : DataFrame) (col : string) (idx : nat) : Prop :=
  ∃ c, loc_get d idx col = Ok (Scalar c) ∧ is_text c = false.

(** The iteration of lines 52-53 reaches [(col, idx)] after the columns
    [done]: every cell it visits before is a float cell. *)
Definition cells_before (d : DataFrame) (done : list string) (col : string)
    (idx : nat) : Prop :=
  (∀ c i, c ∈ done → i < nrows d → float_cell d c i)
  ∧ (∀ i, i < idx → float_cell d col i).

(** The exception lines 54-64 raise at a cell, if they raise one. *)
Definition cell_exception (d : DataFrame) (random_value : Q) (operation col : string)
    (idx : nat) : option exn :=
  match loc_get d idx col with
  | Ok current_value =>
      match adjust_value current_value random_value operation with
      | Ok _ => None
      | Raise e => Some e
      end
  | Raise e => Some e
  end.

(** ** More sample inputs *)

(** A table with its header and no row. *)
Definition empty_frame : DataFrame :=
  {| nrows := 0; columns := [("id", []); ("f1", [])] |}.

Definition empty_frame_state : State :=
  {| frames := {[ 0 := empty_frame ]}; conn := init None |}.

(** The table with a blank cell, on the heap of a fresh store. *)
Definition blank_state : State :=
  {| frames := {[ 0 := blank_frame ]}; conn := init None |}.

(** ** The database file *)

(** What the file holds once a connection has committed: the rows and the
    AUTOINCREMENT counter ([with self.conn] commits every insert). *)
Definition database_file (c : Conn) : option (list Row * Z) :=
  Some (adjustments c, sqlite_sequence c).

(** The ids are 1, 2, ..., n and the counter stands at n. *)
Definition ids_from_one (c : Conn) : Prop :=
  id <$> adjustments c = Z.of_nat <$> seq 1 (length (adjustments c))
  ∧ sqlite_sequence c = Z.of_nat (length (adjustments c)).

(** The clock went strictly forward from each record to the next. *)
Definition clock_increasing (rows : list Row) : Prop :=
  StronglySorted (λ a b, String.ltb (timestamp a) (timestamp b) = true) rows.

(** Three records at seconds 1, 2 and 3. *)
Definition timed_state : State :=
  run_calls [CallRecord (oracle_at 1); CallRecord (oracle_at 2); CallRecord (oracle_at 3)]
    sample_state.

(** A session that records and closes, the system created afterwards on the
    file it left, and a session of that system. *)
Definition previous_session : list call := [CallRecord (sample_oracle 0); CallClose].

Definition reopened_state : State :=
  {| frames := ∅;
     conn := init (database_file (conn (run_calls previous_session sample_state))) |}.

Definition next_session : list call := [CallRecord (sample_oracle 1)].

(** ** [main] (lines 83-190)

    One run of the script on an uploaded file, as a function of what the
    widgets return in that run.  The system of line 88 exists ([init]); the
    table is what [pd.read_excel(uploaded_file, skiprows=1)] gives, with
    distinct labels.  Of what the page displays the model keeps the adjusted
    table, the warning, the history and the error message; the two save
    buttons, which no run reaches pressed, are left out. *)

(** [str(col).startswith('b')] *)
Definition startswith_b (col : string) : bool := String.prefix "b" col.

(** Line 106 *)
Definition bxxxx_columns (d : DataFrame) : list string :=
  filter (λ col, startswith_b col = true) (columns d).*1.

(** Lines 114-122: the dict of the form, a text input for each column. *)
Definition new_column_names (text_input : string → string) (bxxxx : list string)
    : gmap string string :=
  list_to_map ((λ col, (col, text_input col)) <$> bxxxx).

(** [df.rename(columns=mapping)]: a table with the labels the mapping has
    replaced by what it gives. *)
Definition rename (d : DataFrame) (mapping : gmap string string) : DataFrame :=
  {| nrows := nrows d;
     columns := (λ c, (default c.1 (mapping !! c.1), c.2)) <$> columns d |}.

(** [df.columns.drop(label).tolist()]: the labels other than [label], which
    has to be among them. *)
Definition columns_drop (d : DataFrame) (label : string) : Result (list string) :=
  if decide (label ∈ (columns d).*1)
  then Ok (filter (λ c, c ≠ label) (columns d).*1)
  else Raise KeyError.

(** A new object on the heap. *)
Definition df_new (d : DataFrame) (st : State) : nat * State :=
  let l := fresh (dom (frames st)) in
  (l, set_frames (<[l := d]> (frames st)) st).

(** What the widgets return in a run. *)
Record Widgets := {
  uploaded_file : option DataFrame;
  text_input : string → string;
  form_submit_button : bool;
  multiselect : list string → list string;
  apply_button : bool
}.

(** What the [try] block can raise: an exception of the system or of
    pandas, or [columns[0]] on a table without columns. *)
Inductive main_exn :=
  | Raised (e : exn)
  | IndexError.

(** What a run displays. *)
Record Shown := {
  adjusted_data : option (nat * Q * string);
  warning : bool;
  history : option (list Row);
  error : option main_exn
}.

Definition nothing_shown : Shown :=
  {| adjusted_data := None; warning := false; history := None; error := None |}.

Definition error_shown (e : main_exn) : Shown :=
  {| adjusted_data := None; warning := false; history := None; error := Some e |}.

(** The table after lines 96-135: renamed when the form was submitted. *)
Definition renamed_table (w : Widgets) (table : DataFrame) : DataFrame :=
  let bxxxx := bxxxx_columns table in
  if bool_decide (bxxxx ≠ []) && form_submit_button w
  then rename table (new_column_names (text_input w) bxxxx)
  else table.

(** Lines 144-184: the selection, the button and the history. *)
Definition select_and_apply (w : Widgets) (o : Oracle) (feature_selection : nat)
    (feature_columns : list string) (st : State) : Shown * State :=
  let selected_features := multiselect w feature_columns in
  match (if apply_button w
         then apply_random_adjustment o feature_selection selected_features st
         else (Ok None, st)) with
  | (Raise e, st) => (error_shown (Raised e), st)
  | (Ok adjusted, st) =>
      let warned := apply_button w && bool_decide (selected_features = []) in
      match get_adjustment_history st with
      | (Ok rows, st) =>
          ({| adjusted_data := adjusted; warning := warned;
              history := Some rows; error := None |}, st)
      | (Raise e, st) =>
          ({| adjusted_data := adjusted; warning := warned;
              history := None; error := Some (Raised e) |}, st)
      end
  end.

Definition main (w : Widgets) (o : Oracle) (st : State) : Shown * State :=
  match uploaded_file w with
  | None => (nothing_shown, st)
  | Some table =>
      let '(feature_selection, st) := df_new table st in
      match (columns table).*1 with
      | [] => (error_shown IndexError, st)
      | first_column_name :: _ =>
          let bxxxx := bxxxx_columns table in
          let '(feature_selection, st) :=
            if bool_decide (bxxxx ≠ []) && form_submit_button w
            then df_new (rename table (new_column_names (text_input w) bxxxx)) st
            else (feature_selection, st) in
          match columns_drop (renamed_table w table) first_column_name with
          | Raise e => (error_shown (Raised e), st)
          | Ok feature_columns =>
              select_and_apply w o feature_selection feature_columns st
          end
      end
  end.

(** A run on the sample table: the form renames nothing, both features are
    selected and the adjustment is applied. *)
Definition sample_widgets : Widgets :=
  {| uploaded_file := Some sample_frame;
     text_input := λ col, col;
     form_submit_button := false;
     multiselect := λ options, options;
     apply_button := true |}.

(** A table whose first label starts with "b", and a run that renames it. *)
Definition barcode_frame : DataFrame :=
  {| nrows := 1; columns := [("barcode", [Text "r1"]); ("b1", [Num (1 # 2)])] |}.

Definition renaming_widgets : Widgets :=
  {| uploaded_file := Some barcode_frame;
     text_input := λ col, if decide (col = "barcode") then "id" else col;
     form_submit_button := true;
     multiselect := λ options, options;
     apply_button := true |}.

(** A table in which two columns carry the label "f1", as after renaming
    "b1" to "f1". *)
Definition twice_frame : DataFrame :=
  {| nrows := 1;
     columns := [("id", [Text "r1"]); ("f1", [Num (1 # 2)]); ("f1", [Num (1 # 4)])] |}.

Definition twice_state : State :=
  {| frames := {[ 0 := twice_frame ]}; conn := init None |}.

(** * Properties *)

(** ** Numbers *)

Example round_down : Py.round (Py.PyFloat (123456 # 1000000)) 5 = Py.PyFloat (12346 # 100000).
Proof. reflexivity. Qed.

Example round_tie_even : Py.round (Py.PyFloat (5 # 1000000)) 5 = Py.PyFloat (0 # 100000).
Proof. reflexivity. Qed.

Example round_tie_even' : Py.round (Py.PyFloat (15 # 1000000)) 5 = Py.PyFloat (2 # 100000).
Proof. reflexivity. Qed.

Lemma Qltb_true x y : Py.Qltb x y = true ↔ (x < y)%Q.
Proof.
  unfold Py.Qltb. rewrite negb_true_iff, <- not_true_iff_false, Qle_bool_iff.
  split; [apply Qnot_le_lt | apply Qlt_not_le].
Qed.

Lemma Qltb_false x y : Py.Qltb x y = false ↔ (y <= x)%Q.
Proof.
  unfold Py.Qltb. rewrite negb_false_iff. apply Qle_bool_iff.
Qed.

Lemma round_half_even_cases t :
  let f := Qfloor t in
  (Py.round_half_even t = f ∧ (t - inject_Z f <= 1 # 2)%Q)
  ∨ (Py.round_half_even t = (f + 1)%Z ∧ (1 # 2 <= t - inject_Z f)%Q).
Proof.
  intros f. unfold Py.round_half_even. fold f.
  destruct (t - inject_Z f ?= 1 # 2)%Q eqn:E.
  - apply Qeq_alt in E. destruct (Z.even f); [left | right]; split; auto; lra.
  - apply Qlt_alt in E. left. split; auto. lra.
  - apply Qgt_alt in E. right. split; auto. lra.
Qed.

Lemma round_half_even_near t :
  (t - (1 # 2) <= inject_Z (Py.round_half_even t))%Q
  ∧ (inject_Z (Py.round_half_even t) <= t + (1 # 2))%Q.
Proof.
  pose proof (Qfloor_le t) as Hlo. pose proof (Qlt_floor t) as Hhi.
  destruct (round_half_even_cases t) as [[-> H] | [-> H]].
  - lra.
  - rewrite inject_Z_plus in *. change (inject_Z 1) with 1%Q in *. lra.
Qed.

Lemma round_half_even_between t (lo hi : Z) :
  (inject_Z lo <= t)%Q → (t <= inject_Z hi)%Q →
  (lo <= Py.round_half_even t <= hi)%Z.
Proof.
  intros Hlo Hhi.
  assert (lo <= Qfloor t)%Z as Hf.
  { rewrite <- (Qfloor_Z lo). by apply Qfloor_resp_le. }
  pose proof (Qfloor_le t) as Hfl.
  destruct (round_half_even_cases t) as [[-> H] | [-> H]].
  - split; [done |]. rewrite Zle_Qle. lra.
  - split; [lia |].
    assert (inject_Z (Qfloor t) < inject_Z hi)%Q as Hlt by lra.
    rewrite <- Zlt_Qlt in Hlt. lia.
Qed.

Lemma clamp_unit t :
  ((t <= 0)%Q → (Spec.clamp t 0 1 == 0)%Q)
  ∧ ((1 <= t)%Q → (Spec.clamp t 0 1 == 1)%Q)
  ∧ ((0 <= t)%Q → (t <= 1)%Q → (Spec.clamp t 0 1 == t)%Q).
Proof.
  unfold Spec.clamp.
  destruct (Qlt_le_dec t 0), (Qlt_le_dec 1 t); repeat split; intros; lra.
Qed.

Lemma signed_plus v : (Spec.signed "+" v == v)%Q.
Proof. unfold Spec.signed. simpl. lra. Qed.

Lemma signed_other op v : op ≠ "+" → (Spec.signed op v == - v)%Q.
Proof. intros H. unfold Spec.signed. destruct (decide (op = "+")); [done | lra]. Qed.

(** What lines 57-64 store for a float [x]: the clamped sum rounded to 5
    digits, within the unit interval, and the bound itself when the sum
    reaches or passes it. *)
Lemma adjust_value_num x v op :
  let t := (x + Spec.signed op v)%Q in
  ∃ y, adjust_value (Scalar (Num x)) v op = Ok (Num y)
       ∧ Spec.rounded 5 (Spec.clamp t 0 1) y
       ∧ (0 <= y)%Q ∧ (y <= 1)%Q
       ∧ ((t <= 0)%Q → y = 0%Q)
       ∧ ((1 <= t)%Q → y = 1%Q).
Proof.
  intros t.
  set (nv := if decide (op = "+") then (x + v)%Q else (x - v)%Q).
  assert (nv == t)%Q as Hnv.
  { unfold nv, t. destruct (decide (op = "+")) as [-> | Hne].
    - rewrite signed_plus. lra.
    - rewrite (signed_other _ _ Hne). lra. }
  assert (adjust_value (Scalar (Num x)) v op
          = Ok (cell_of_number (Py.round (Py.max (Py.PyInt 0)
                 (Py.min (Py.PyInt 1) (Py.PyFloat nv))) 5))) as ->.
  { unfold adjust_value, nv. simpl. by destruct (decide (op = "+")). }
  clearbody nv.
  destruct (clamp_unit t) as (Hc0 & Hc1 & Hcm).
  unfold Spec.rounded, Py.min, Py.max, Py.lt. cbn [Py.value].
  change (Py.pow10 5) with 100000%positive.
  change (inject_Z 1) with 1%Q. change (inject_Z 0) with 0%Q.
  destruct (Py.Qltb nv 1) eqn:E1.
  - apply Qltb_true in E1. cbn [Py.value].
    destruct (Py.Qltb 0 nv) eqn:E0.
    + apply Qltb_true in E0. simpl.
      change (Py.pow10 5) with 100000%positive.
      set (k := Py.round_half_even (nv * inject_Z 100000)).
      exists (k # 100000)%Q. split; [done |].
      destruct (round_half_even_near (nv * inject_Z 100000)) as [Hlo Hhi].
      destruct (round_half_even_between (nv * inject_Z 100000) 0 100000) as [Hk0 Hk1].
      { change (inject_Z 0) with 0%Q. change (inject_Z 100000) with (100000 # 1)%Q. lra. }
      { change (inject_Z 100000) with (100000 # 1)%Q. lra. }
      fold k in Hlo, Hhi, Hk0, Hk1.
      assert (k # 100000 == inject_Z k / inject_Z 100000)%Q as Hq by apply Qmake_Qdiv.
      rewrite Zle_Qle in Hk0, Hk1.
      change (inject_Z 0) with 0%Q in Hk0.
      change (inject_Z 100000) with (100000 # 1)%Q in *.
      assert (Spec.clamp t 0 1 == nv)%Q as Hc by (rewrite Hcm; lra).
      assert (k # 100000 == inject_Z k * (1 # 100000))%Q as Hq'.
      { rewrite Hq. field. }
      assert ((1 # 2) / (100000 # 1) == 1 # 200000)%Q as Hh by reflexivity.
      assert (∃ k0, k # 100000 == inject_Z k0 / (100000 # 1))%Q as Hex by (by exists k).
      clearbody k. revert Hlo Hhi Hk0 Hk1 Hq Hq'. generalize (inject_Z k) as q.
      intros q Hlo Hhi Hk0 Hk1 Hq Hq'.
      repeat split.
      * exact Hex.
      * rewrite Hc, Hq', Hh. lra.
      * rewrite Hc, Hq', Hh. lra.
      * rewrite Hq'. lra.
      * rewrite Hq'. lra.
      * intros. lra.
      * intros. lra.
    + apply Qltb_false in E0. simpl. exists 0%Q. split; [done |].
      assert (Spec.clamp t 0 1 == 0)%Q as Hc by (apply Hc0; lra).
      repeat split.
      * exists 0%Z. reflexivity.
      * rewrite Hc. by apply Qle_bool_iff.
      * rewrite Hc. by apply Qle_bool_iff.
      * by apply Qle_bool_iff.
      * by apply Qle_bool_iff.
      * intros. exfalso. lra.
  - apply Qltb_false in E1. simpl. exists 1%Q. split; [done |].
    assert (Spec.clamp t 0 1 == 1)%Q as Hc by (apply Hc1; lra).
    repeat split.
    + exists 100000%Z. reflexivity.
    + rewrite Hc. by apply Qle_bool_iff.
    + rewrite Hc. by apply Qle_bool_iff.
    + by apply Qle_bool_iff.
    + by apply Qle_bool_iff.
    + intros. exfalso. lra.
Qed.

(** A blank cell comes out as 1: NaN is never below 1, so [min] keeps its
    first argument. *)
Lemma adjust_value_nan v op : adjust_value (Scalar NaN) v op = Ok (Num 1).
Proof. unfold adjust_value. simpl. by destruct (decide (op = "+")). Qed.

Lemma adjust_value_float c v op :
  is_text c = false → ∃ nv, adjust_value (Scalar c) v op = Ok nv.
Proof.
  intros Hc. destruct c as [x | | s]; [| | done].
  - destruct (adjust_value_num x v op) as (y & -> & _). eauto.
  - rewrite adjust_value_nan. eauto.
Qed.

Lemma adjust_value_ok cv v op nv :
  adjust_value cv v op = Ok nv → ∃ c, cv = Scalar c.
Proof.
  destruct cv as [c | cs]; [eauto |]. simpl. by destruct (existsb is_text cs).
Qed.

(** ** Running the monad *)

Lemma bind_run {S A B} (m : StateExn S A) (f : A → StateExn S B) st :
  (m ≫= f) st =
  match m st with
  | (Ok a, st') => f a st'
  | (Raise e, st') => (Raise e, st')
  end.
Proof. reflexivity. Qed.

Lemma for_cons {S A} (x : A) l (body : A → StateExn S unit) st :
  for_ (x :: l) body st =
  match body x st with
  | (Ok _, st') => for_ l body st'
  | (Raise e, st') => (Raise e, st')
  end.
Proof. reflexivity. Qed.

Lemma set_frames_id st : set_frames (frames st) st = st.
Proof. by destruct st. Qed.

Lemma set_frames_twice f g st : set_frames f (set_frames g st) = set_frames f st.
Proof. reflexivity. Qed.

Lemma conn_id c :
  {| closed := closed c; adjustments := adjustments c;
     sqlite_sequence := sqlite_sequence c |} = c.
Proof. by destruct c. Qed.

Section loop_on_heap.
Context (df adj : nat) (d : DataFrame) (rv : Q) (op : string).
Hypothesis Hne : df ≠ adj.

Lemma body_on_heap col idx st a :
  frames st !! df = Some d → frames st !! adj = Some a →
  adjust_cell df adj rv op col idx st =
  let r := step_cell d rv op col idx a in
  (r.1, set_frames (<[adj := r.2]> (frames st)) st).
Proof.
  intros Hd Ha. unfold adjust_cell, step_cell. rewrite !bind_run.
  unfold df_read. rewrite Hd.
  destruct (loc_get d idx col) as [cv | e]; simpl.
  2: { by rewrite insert_id, set_frames_id. }
  rewrite bind_run. unfold lift.
  destruct (adjust_value cv rv op) as [nv | e]; simpl.
  2: { by rewrite insert_id, set_frames_id. }
  unfold df_write. by rewrite Ha.
Qed.

Lemma rows_loop_on_heap col idxs st a :
  frames st !! df = Some d → frames st !! adj = Some a →
  for_ idxs (adjust_cell df adj rv op col) st =
  let r := for_ idxs (step_cell d rv op col) a in
  (r.1, set_frames (<[adj := r.2]> (frames st)) st).
Proof.
  revert st a. induction idxs as [| idx idxs IH]; intros st a Hd Ha.
  - simpl. unfold mret, StateExn_ret. simpl.
    by rewrite insert_id, set_frames_id.
  - rewrite !for_cons, (body_on_heap col idx st a Hd Ha). simpl.
    destruct (step_cell d rv op col idx a) as [[[] | e] a1]; simpl.
    + rewrite (IH _ a1); simpl.
      * by rewrite insert_insert_eq.
      * by rewrite lookup_insert_ne.
      * by rewrite lookup_insert_eq.
    + reflexivity.
Qed.

Lemma cols_loop_on_heap sel st a :
  frames st !! df = Some d → frames st !! adj = Some a →
  for_ sel (λ col,
    index ← df_read df (λ d, Ok (seq 0 (nrows d)));
    for_ index (adjust_cell df adj rv op col)) st =
  let r := for_ sel (λ col, for_ (seq 0 (nrows d)) (step_cell d rv op col)) a in
  (r.1, set_frames (<[adj := r.2]> (frames st)) st).
Proof.
  revert st a. induction sel as [| col sel IH]; intros st a Hd Ha.
  - simpl. unfold mret, StateExn_ret. simpl.
    by rewrite insert_id, set_frames_id.
  - rewrite !for_cons, bind_run.
    unfold df_read at 1. rewrite Hd.
    rewrite (rows_loop_on_heap col _ st a Hd Ha). simpl.
    destruct (for_ (seq 0 (nrows d)) (step_cell d rv op col) a) as [[[] | e] a1]; simpl.
    + rewrite (IH _ a1); simpl.
      * by rewrite insert_insert_eq.
      * by rewrite lookup_insert_ne.
      * by rewrite lookup_insert_eq.
    + reflexivity.
Qed.
End loop_on_heap.

Lemma generate_run o st :
  generate_and_store_random o st =
  if closed (conn st) then (Raise ProgrammingError, st)
  else match io_error o with
       | Some msg => (Raise (OperationalError msg), st)
       | None => (Ok (drawn_value o, drawn_operation o), set_conn (inserted o (conn st)) st)
       end.
Proof.
  unfold generate_and_store_random. rewrite bind_run.
  unfold with_conn, execute_insert.
  destruct st as [f [[] rows sq]]; simpl; [done |].
  by destruct (io_error o).
Qed.

Lemma fresh_frame_ne (f : gmap nat DataFrame) df d :
  f !! df = Some d → df ≠ fresh (dom f).
Proof.
  intros Hd ->. apply (is_fresh (dom f)). by apply (elem_of_dom_2 _ _ d).
Qed.

Lemma adjust_run o df sel st d :
  frames st !! df = Some d →
  adjust_dataframe o df sel st =
  let adj := fresh (dom (frames st)) in
  if closed (conn st) then
    (Raise ProgrammingError, set_frames (<[adj := d]> (frames st)) st)
  else match io_error o with
       | Some msg =>
           (Raise (OperationalError msg), set_frames (<[adj := d]> (frames st)) st)
       | None =>
           let r := adjust_cells d (drawn_value o) (drawn_operation o) sel d in
           (match r.1 with
            | Ok _ => Ok (adj, drawn_value o, drawn_operation o)
            | Raise e => Raise e
            end,
            {| frames := <[adj := r.2]> (frames st); conn := inserted o (conn st) |})
       end.
Proof.
  intros Hd. pose proof (fresh_frame_ne _ _ _ Hd) as Hne.
  unfold adjust_dataframe. rewrite bind_run.
  unfold df_copy. rewrite Hd. rewrite bind_run, generate_run. simpl.
  destruct (closed (conn st)); [done |].
  destruct (io_error o); [done |].
  rewrite bind_run.
  rewrite (cols_loop_on_heap df _ d _ _ Hne sel _ d); simpl.
  - unfold adjust_cells.
    destruct (for_ sel _ d) as [[[] | e] a']; simpl.
    + by rewrite insert_insert_eq.
    + by rewrite insert_insert_eq.
  - by rewrite lookup_insert_ne.
  - by rewrite lookup_insert_eq.
Qed.

(** ** The loop on the copy, cell by cell *)

Lemma col_rel_iff P Q g c c' :
  (∀ s i, P s i ↔ Q s i) → col_rel P g c c' → col_rel Q g c c'.
Proof.
  intros HPQ (Hl & Hn & Hc). repeat split; [done | done | |].
  - intros HQ. apply (Hc i x); [done |]. by apply HPQ.
  - intros HQ. apply (Hc i x); [done |]. by rewrite HPQ.
Qed.

Lemma col_rel_trans P1 P2 g c c1 c' :
  (∀ s i, Decision (P2 s i)) →
  col_rel P1 g c c1 → col_rel P2 g c1 c' →
  col_rel (λ s i, P1 s i ∨ P2 s i) g c c'.
Proof.
  intros Hdec (Hl1 & Hn1 & Hc1) (Hl2 & Hn2 & Hc2).
  split; [congruence |]. split; [congruence |].
  intros i x Hx.
  destruct (Hc1 i x Hx) as [Hin1 Hout1].
  assert (is_Some (c1.2 !! i)) as [x1 Hx1].
  { apply lookup_lt_is_Some. rewrite Hn1. by eapply lookup_lt_Some. }
  destruct (Hc2 i x1 Hx1) as [Hin2 Hout2]. rewrite Hl1 in Hin2, Hout2.
  destruct (Hdec c.1 i) as [HP2 | HP2].
  - split; [intros _; by apply Hin2 | tauto].
  - split.
    + intros [HP1 | ?]; [| done]. rewrite (Hout2 HP2), <- Hx1. by apply Hin1.
    + intros Hno. rewrite (Hout2 HP2), <- Hx1. apply Hout1. tauto.
Qed.

Lemma col_rel_outside P g c c' :
  (∀ i, ¬ P c.1 i) → col_rel P g c c' → c' = c.
Proof.
  intros Hno (Hl & Hn & Hc). destruct c as [s l], c' as [s' l']; simpl in *.
  f_equal; [done |]. apply list_eq. intros i.
  destruct (l !! i) as [x |] eqn:Hx.
  - by apply (Hc i x).
  - apply lookup_ge_None. rewrite Hn. by apply lookup_ge_None.
Qed.

Lemma Forall2_compose {A} (R1 R2 R : A → A → Prop) l k m :
  (∀ x y z, R1 x y → R2 y z → R x z) →
  Forall2 R1 l k → Forall2 R2 k m → Forall2 R l m.
Proof.
  intros HR H1. revert m. induction H1 as [| x y l k Hxy _ IH]; intros m H2.
  - apply Forall2_nil_inv_l in H2 as ->. constructor.
  - apply Forall2_cons_inv_l in H2 as (z & m' & Hyz & H2 & ->).
    constructor; eauto.
Qed.

Lemma Forall2_eq_on {A} (R : A → A → Prop) (P : A → Prop) l k :
  Forall P l → (∀ x y, P x → R x y → y = x) → Forall2 R l k → k = l.
Proof.
  intros HP HR H2. induction H2 as [| x y l k Hxy _ IH]; [done |].
  apply Forall_cons in HP as [Hx HP]. f_equal; auto.
Qed.

Section cells.
Context (d : DataFrame) (rv : Q) (op : string).

Lemma step_cell_ok col idx a a' :
  step_cell d rv op col idx a = (Ok tt, a') →
  ∃ nv, written d rv op col idx = Some nv ∧ a' = loc_set a idx col nv.
Proof.
  unfold step_cell, written.
  destruct (loc_get d idx col) as [cv | e]; [| done].
  destruct (adjust_value cv rv op) as [nv | e]; [| done].
  intros [= <-]. eauto.
Qed.

Lemma step_cell_written col idx nv a :
  written d rv op col idx = Some nv →
  step_cell d rv op col idx a = (Ok tt, loc_set a idx col nv).
Proof.
  unfold step_cell, written.
  destruct (loc_get d idx col) as [cv | e]; [| done].
  destruct (adjust_value cv rv op) as [nv' | e]; [| done].
  by intros [= <-].
Qed.

Lemma loc_set_rel col idx nv a :
  written d rv op col idx = Some nv →
  Forall2 (col_rel (λ s i, s = col ∧ i = idx) (written d rv op))
    (columns a) (columns (loc_set a idx col nv)).
Proof.
  intros Hw. unfold loc_set. cbn [columns].
  apply Forall2_fmap_r, Forall_Forall2_diag, Forall_forall.
  intros [s l] _. unfold compose, col_rel. cbn [fst snd].
  destruct (decide (s = col)) as [-> | Hs]; cbn [fst snd].
  - split; [done |]. split; [by rewrite length_insert |].
    intros i x Hx. rewrite list_lookup_insert. split.
    + intros [_ ->]. rewrite decide_True; [done |].
      split; [done |]. by eapply lookup_lt_Some.
    + intros Hno. rewrite decide_False; [done |]. intros [-> _]. by apply Hno.
  - split; [done |]. split; [done |]. intros i x Hx. split; [| done].
    by intros [-> _].
Qed.

Lemma rows_loop_ok col idxs a a' :
  for_ idxs (step_cell d rv op col) a = (Ok tt, a') →
  nrows a' = nrows a
  ∧ Forall2 (col_rel (λ s i, s = col ∧ i ∈ idxs) (written d rv op)) (columns a) (columns a')
  ∧ ∀ idx, idx ∈ idxs → is_Some (written d rv op col idx).
Proof.
  revert a. induction idxs as [| idx idxs IH]; intros a.
  - intros [= <-]. split; [done |]. split.
    + apply Forall_Forall2_diag, Forall_forall. intros c _.
      split; [done |]. split; [done |]. intros i x Hx. split; [| done].
      intros [_ Hi]. by apply elem_of_nil in Hi.
    + intros idx Hi. by apply elem_of_nil in Hi.
  - rewrite for_cons.
    destruct (step_cell d rv op col idx a) as [[[] | e] a1] eqn:Hstep; [| done].
    apply step_cell_ok in Hstep as (nv & Hw & ->).
    intros (Hn & Hrel & Hall)%IH. split; [done |]. split.
    + eapply Forall2_compose; [| by apply loc_set_rel | exact Hrel].
      intros x y z Hxy Hyz. eapply col_rel_iff; [| eapply col_rel_trans; eauto].
      * intros s i. simpl. rewrite elem_of_cons. tauto.
      * intros s i. apply _.
    + intros i [-> | Hi]%elem_of_cons; [by rewrite Hw | by apply Hall].
Qed.

Lemma adjust_cells_ok sel a a' :
  adjust_cells d rv op sel a = (Ok tt, a') →
  nrows a' = nrows a
  ∧ Forall2 (col_rel (λ s i, s ∈ sel ∧ i < nrows d) (written d rv op)) (columns a) (columns a')
  ∧ ∀ col idx, col ∈ sel → idx < nrows d → is_Some (written d rv op col idx).
Proof.
  unfold adjust_cells. revert a. induction sel as [| col sel IH]; intros a.
  - intros [= <-]. split; [done |]. split.
    + apply Forall_Forall2_diag, Forall_forall. intros c _.
      split; [done |]. split; [done |]. intros i x Hx. split; [| done].
      intros [Hi _]. by apply elem_of_nil in Hi.
    + intros col idx Hi. by apply elem_of_nil in Hi.
  - rewrite for_cons.
    destruct (for_ (seq 0 (nrows d)) _ a) as [[[] | e] a1] eqn:Hrows; [| done].
    apply rows_loop_ok in Hrows as (Hn1 & Hrel1 & Hall1).
    intros (Hn & Hrel & Hall)%IH. split; [congruence |]. split.
    + eapply Forall2_compose; [| exact Hrel1 | exact Hrel].
      intros x y z Hxy Hyz. eapply col_rel_iff; [| eapply col_rel_trans; eauto].
      * intros s i. simpl.
        assert (i ∈ seq 0 (nrows d) ↔ i < nrows d) as -> by (rewrite elem_of_seq; lia).
        rewrite elem_of_cons. tauto.
      * intros s i. apply _.
    + intros c i [-> | Hc]%elem_of_cons Hi; [| by apply Hall].
      apply Hall1, elem_of_seq. lia.
Qed.
End cells.

(** ** The adjusted frame *)

Lemma loc_get_scalar d idx col v :
  loc_get d idx col = Ok (Scalar v) ↔
  ∃ c, labelled col d = [c] ∧ c.2 !! idx = Some v.
Proof.
  unfold loc_get. destruct (labelled col d) as [| c [| c2 cs]].
  - split; [done | by intros (? & ? & ?)].
  - split.
    + destruct (c.2 !! idx) as [v' |] eqn:Hv; [| done].
      intros [= ->]. eauto.
    + intros (c0 & [= <-] & ->). done.
  - split; [done | by intros (? & ? & ?)].
Qed.

Lemma written_scalar d rv op col idx nv :
  written d rv op col idx = Some nv ↔
  ∃ c, loc_get d idx col = Ok (Scalar c) ∧ adjust_value (Scalar c) rv op = Ok nv.
Proof.
  unfold written. split.
  - destruct (loc_get d idx col) as [cv | e]; [| done].
    destruct (adjust_value cv rv op) as [nv' | e] eqn:Hv; [| done].
    intros [= <-]. destruct (adjust_value_ok _ _ _ _ Hv) as [c ->]. eauto.
  - intros (c & -> & ->). done.
Qed.

Lemma labelled_rel (R : string * list cell → string * list cell → Prop) col d a :
  (∀ c c', R c c' → c'.1 = c.1) →
  Forall2 R (columns d) (columns a) →
  Forall2 R (labelled col d) (labelled col a).
Proof.
  intros Hl. unfold labelled. apply Forall2_filter.
  intros c c' ->%Hl. done.
Qed.

Section adjusted_frame.
Context (d : DataFrame) (rv : Q) (op : string) (sel : list string) (a' : DataFrame).
Hypothesis Hrun : adjust_cells d rv op sel d = (Ok tt, a').

Lemma adjusted_frame_selected col idx :
  col ∈ sel → idx < nrows d →
  ∃ c nv, loc_get d idx col = Ok (Scalar c)
          ∧ adjust_value (Scalar c) rv op = Ok nv
          ∧ loc_get a' idx col = Ok (Scalar nv).
Proof.
  intros Hcol Hidx.
  destruct (adjust_cells_ok _ _ _ _ _ _ Hrun) as (_ & Hrel & Hall).
  destruct (Hall col idx Hcol Hidx) as [nv Hw].
  pose proof Hw as (c0 & Hget & Hval)%written_scalar.
  exists c0, nv. split; [done |]. split; [done |].
  apply loc_get_scalar in Hget as (c & Hc & Hx).
  pose proof (labelled_rel _ col d a' (λ c c' H, proj1 H) Hrel) as Hlab.
  rewrite Hc in Hlab.
  apply Forall2_cons_inv_l in Hlab as (c' & k & (Hl & _ & Hcells) & Hk & Hlab').
  apply Forall2_nil_inv_l in Hk as ->.
  apply loc_get_scalar. exists c'. split; [done |].
  assert (c.1 = col) as Hc1.
  { assert (c ∈ labelled col d) as Hin by (rewrite Hc; by apply list_elem_of_singleton).
    unfold labelled in Hin. by apply list_elem_of_filter in Hin as [? _]. }
  destruct (Hcells idx _ Hx) as [Hin _].
  rewrite Hin, Hc1; [done |]. by rewrite Hc1.
Qed.

Lemma adjusted_frame_shape :
  nrows a' = nrows d
  ∧ Forall2 (λ c c', c'.1 = c.1 ∧ length c'.2 = length c.2 ∧ (c.1 ∉ sel → c' = c))
      (columns d) (columns a').
Proof.
  destruct (adjust_cells_ok _ _ _ _ _ _ Hrun) as (Hn & Hrel & _).
  split; [done |]. eapply Forall2_impl; [exact Hrel |].
  intros c c' Hc. pose proof Hc as (Hl & Hlen & _). repeat split; [done | done |].
  intros Hout. eapply col_rel_outside; [| exact Hc]. intros i [? _]. done.
Qed.

Lemma adjusted_frame_others col idx :
  col ∉ sel → loc_get a' idx col = loc_get d idx col.
Proof.
  intros Hout. destruct adjusted_frame_shape as [_ Hrel].
  assert (labelled col a' = labelled col d) as Hlab.
  { pose proof (labelled_rel _ col d a' (λ c c' H, proj1 H) Hrel) as HF.
    eapply (Forall2_eq_on _ (λ c, c.1 = col)); [| | exact HF].
    - unfold labelled. apply Forall_forall. intros c Hc%list_elem_of_filter. tauto.
    - intros c c' Hc (_ & _ & Heq). apply Heq. by rewrite Hc. }
  unfold loc_get. by rewrite Hlab.
Qed.
End adjusted_frame.

Lemma for_total {S A} (l : list A) (body : A → StateExn S unit) :
  (∀ x s, x ∈ l → ∃ s', body x s = (Ok tt, s')) →
  ∀ s, ∃ s', for_ l body s = (Ok tt, s').
Proof.
  induction l as [| x l IH]; intros Hbody s.
  - by exists s.
  - rewrite for_cons.
    destruct (Hbody x s) as [s1 ->]; [by left |].
    apply IH. intros y s2 Hy. apply Hbody. by right.
Qed.

Lemma adjust_cells_total d rv op sel a :
  (∀ col idx, col ∈ sel → idx < nrows d →
     ∃ c, loc_get d idx col = Ok (Scalar c) ∧ is_text c = false) →
  ∃ a', adjust_cells d rv op sel a = (Ok tt, a').
Proof.
  intros Hnum. unfold adjust_cells. apply for_total.
  intros col a1 Hcol. apply for_total.
  intros idx a2 Hidx%elem_of_seq.
  destruct (Hnum col idx Hcol) as (c & Hc & Hfloat); [lia |].
  destruct (adjust_value_float c rv op Hfloat) as [nv Hnv].
  exists (loc_set a2 idx col nv).
  apply step_cell_written, written_scalar. eauto.
Qed.

(** ** [adjust_dataframe] as a whole *)

Lemma adjust_ok_inv o df sel st d adj v s st' :
  frames st !! df = Some d →
  adjust_dataframe o df sel st = (Ok (adj, v, s), st') →
  closed (conn st) = false ∧ io_error o = None
  ∧ adj = fresh (dom (frames st))
  ∧ v = drawn_value o ∧ s = drawn_operation o
  ∧ ∃ a', adjust_cells d v s sel d = (Ok tt, a')
          ∧ st' = {| frames := <[adj := a']> (frames st);
                     conn := inserted o (conn st) |}.
Proof.
  intros Hd. rewrite (adjust_run _ _ _ _ _ Hd). cbv zeta.
  destruct (closed (conn st)); [done |].
  destruct (io_error o); [done |].
  destruct (adjust_cells d (drawn_value o) (drawn_operation o) sel d)
    as [[[] | e] a'] eqn:Hcells; simpl; [| done].
  intros [= <- <- <- <-]. repeat split; eauto.
Qed.

Lemma adjust_heap o df sel st d r st' :
  frames st !! df = Some d →
  adjust_dataframe o df sel st = (r, st') →
  ∃ a, frames st' = <[fresh (dom (frames st)) := a]> (frames st).
Proof.
  intros Hd. rewrite (adjust_run _ _ _ _ _ Hd). cbv zeta.
  destruct (closed (conn st)); [intros [= <- <-]; by eexists |].
  destruct (io_error o); intros [= <- <-]; by eexists.
Qed.

(** ** Scenarios *)

(** Scenario A: f1 = 0.02 is clamped to 0, f2 stays 0.5, and one row with
    magnitude 0.1 and sign "-" is recorded. *)
Example scenario_A :
  let st := {| frames := {[ 0 := scenario_frame ]}; conn := init None |} in
  let res := adjust_dataframe forced_oracle 0 ["f1"] st in
  res.1 = Ok (1, drawn_value forced_oracle, "-")
  ∧ (drawn_value forced_oracle == 1 # 10)%Q
  ∧ frames res.2 !! 1
    = Some {| nrows := 1;
              columns := [("id", [Text "r1"]); ("f1", [Num 0]); ("f2", [Num (1 # 2)])] |}
  ∧ frames res.2 !! 0 = Some scenario_frame
  ∧ adjustments (conn res.2)
    = [{| id := 1; random_value := drawn_value forced_oracle; operation := "-";
          timestamp := "2024-05-01T10:00:00.000001" |}].
Proof. repeat split; by vm_compute. Qed.

(** A blank cell of a selected column comes out as 1. *)
Example blank_cell_becomes_one :
  let st := {| frames := {[ 0 := blank_frame ]}; conn := init None |} in
  let res := adjust_dataframe (sample_oracle 0) 0 ["f1"] st in
  ∃ a', frames res.2 !! 1 = Some a'
        ∧ loc_get blank_frame 0 "f1" = Ok (Scalar NaN)
        ∧ loc_get a' 0 "f1" = Ok (Scalar (Num 1)).
Proof. eexists. split; [vm_compute; reflexivity |]. split; by vm_compute. Qed.

(** Selecting the identifier column raises at its first cell, after the
    history row has been written. *)
Example identifier_selected :
  let res := adjust_dataframe (sample_oracle 0) 0 ["f1"; "id"] sample_state in
  res.1 = Raise TypeError
  ∧ length (adjustments (conn res.2)) = 1
  ∧ frames res.2 !! 0 = Some sample_frame.
Proof. repeat split; by vm_compute. Qed.

(** Scenario D: after 15 adjustments at increasing times the history holds
    the 10 latest, ids descending. *)
Example scenario_D :
  let st := run_calls ((λ n, CallAdjust (oracle_at n) 0 ["f1"]) <$> seq 1 15) sample_state in
  id <$> adjustments (conn st) = [1; 2; 3; 4; 5; 6; 7; 8; 9; 10; 11; 12; 13; 14; 15]%Z
  ∧ ∃ l, (get_adjustment_history st).1 = Ok l
         ∧ id <$> l = [15; 14; 13; 12; 11; 10; 9; 8; 7; 6]%Z.
Proof.
  split; [by vm_compute |]. eexists. split; [vm_compute; reflexivity | by vm_compute].
Qed.



(** C2. Whatever the call does, the input table is what it was before, and
    so is every other object on the heap; a returned table is a new object
    with the rows and columns of the input in which every column outside
    the selection, the identifier column among them, is the input's. *)
Theorem adjust_dataframe_frame (st : State) (o : Oracle) (df : nat)
    (d : DataFrame) (sel : list string) (r : Result (nat * Q * string)) (st' : State) :
  frames st !! df = Some d →
  adjust_dataframe o df sel st = (r, st') →
  frames st' !! df = Some d
  ∧ (∀ l, l ∈ dom (frames st) → frames st' !! l = frames st !! l)
  ∧ ∀ adj magnitude sign, r = Ok (adj, magnitude, sign) →
      (adj ∉ dom (frames st))
      ∧ ∃ a', frames st' !! adj = Some a'
          ∧ nrows a' = nrows d
          ∧ Forall2 (λ c c', c'.1 = c.1 ∧ length c'.2 = length c.2
                              ∧ (c.1 ∉ sel → c' = c))
              (columns d) (columns a')
          ∧ ∀ col idx, col ∉ sel → loc_get a' idx col = loc_get d idx col.
Proof.
  intros Hd Hrun.
  destruct (adjust_heap _ _ _ _ _ _ _ Hd Hrun) as [a Hheap].
  assert (∀ l, l ∈ dom (frames st) → frames st' !! l = frames st !! l) as Hold.
  { intros l Hl. rewrite Hheap, lookup_insert_ne; [done |].
    intros <-. by apply (is_fresh (dom (frames st))). }
  split; [| split; [exact Hold |]].
  - rewrite Hold; [done |]. by apply (elem_of_dom_2 _ _ d).
  - intros adj v s ->.
    destruct (adjust_ok_inv _ _ _ _ _ _ _ _ _ Hd Hrun)
      as (_ & _ & -> & _ & _ & a' & Hcells & ->).
    split; [apply is_fresh |].
    exists a'. split; [apply lookup_insert_eq |].
    destruct (adjusted_frame_shape _ _ _ _ _ Hcells) as [Hn Hrel].
    split; [done |]. split; [done |].
    intros col idx Hout. by eapply adjusted_frame_others.
Qed.

Lemma adjust_dataframe_frame_witness :
  frames sample_state !! 0 = Some sample_frame
  ∧ adjust_dataframe (sample_oracle 1) 0 ["f1"] sample_state
    = (sample_run.1, sample_run.2)
  ∧ sample_run.1 = Ok (1, drawn_value (sample_oracle 1), "-")
  ∧ frames sample_run.2 !! 0 = Some sample_frame
  ∧ (∀ l, l ∈ dom (frames sample_state) →
          frames sample_run.2 !! l = frames sample_state !! l)
  ∧ ∀ adj magnitude sign, sample_run.1 = Ok (adj, magnitude, sign) →
      (adj ∉ dom (frames sample_state))
      ∧ ∃ a', frames sample_run.2 !! adj = Some a'
          ∧ nrows a' = nrows sample_frame
          ∧ Forall2 (λ c c', c'.1 = c.1 ∧ length c'.2 = length c.2
                              ∧ (c.1 ∉ ["f1"] → c' = c))
              (columns sample_frame) (columns a')
          ∧ ∀ col idx, col ∉ ["f1"] → loc_get a' idx col = loc_get sample_frame idx col.
Proof.
  split; [reflexivity |]. split; [apply surjective_pairing |].
  split; [reflexivity |].
  apply (adjust_dataframe_frame sample_state (sample_oracle 1) 0 sample_frame ["f1"]);
    [reflexivity | apply surjective_pairing].
Defined.

(** C10. Two calls on equal tables with equal selections that draw the same
    magnitude and sign return equal tables, whatever else differs between
    them: the store, the clock, the other objects on the heap. *)
Theorem adjust_dataframe_deterministic (st1 st2 : State) (o1 o2 : Oracle)
    (df1 df2 : nat) (d : DataFrame) (sel : list string)
    (adj1 adj2 : nat) (magnitude : Q) (sign : string) (st1' st2' : State) :
  frames st1 !! df1 = Some d →
  frames st2 !! df2 = Some d →
  adjust_dataframe o1 df1 sel st1 = (Ok (adj1, magnitude, sign), st1') →
  adjust_dataframe o2 df2 sel st2 = (Ok (adj2, magnitude, sign), st2') →
  ∃ a', frames st1' !! adj1 = Some a' ∧ frames st2' !! adj2 = Some a'.
Proof.
  intros Hd1 Hd2 Hrun1 Hrun2.
  destruct (adjust_ok_inv _ _ _ _ _ _ _ _ _ Hd1 Hrun1)
    as (_ & _ & _ & _ & _ & a1 & Hc1 & ->).
  destruct (adjust_ok_inv _ _ _ _ _ _ _ _ _ Hd2 Hrun2)
    as (_ & _ & _ & _ & _ & a2 & Hc2 & ->).
  rewrite Hc1 in Hc2. injection Hc2 as <-.
  exists a1. simpl. by rewrite !lookup_insert_eq.
Qed.

Lemma adjust_dataframe_deterministic_witness :
  frames sample_state !! 0 = Some sample_frame
  ∧ frames other_state !! 7 = Some sample_frame
  ∧ adjust_dataframe (sample_oracle 1) 0 ["f1"] sample_state
    = (Ok (1, drawn_value other_oracle, "-"), sample_run.2)
  ∧ adjust_dataframe other_oracle 7 ["f1"] other_state
    = (Ok (8, drawn_value other_oracle, "-"), other_run.2)
  ∧ conn sample_run.2 ≠ conn other_run.2
  ∧ ∃ a', frames sample_run.2 !! 1 = Some a' ∧ frames other_run.2 !! 8 = Some a'.
Proof.
  assert (adjust_dataframe (sample_oracle 1) 0 ["f1"] sample_state
          = (Ok (1, drawn_value other_oracle, "-"), sample_run.2)) as H1 by reflexivity.
  assert (adjust_dataframe other_oracle 7 ["f1"] other_state
          = (Ok (8, drawn_value other_oracle, "-"), other_run.2)) as H2 by reflexivity.
  split; [reflexivity |]. split; [reflexivity |].
  split; [exact H1 |]. split; [exact H2 |].
  split; [by vm_compute |].
  exact (adjust_dataframe_deterministic sample_state other_state (sample_oracle 1)
           other_oracle 0 7 sample_frame ["f1"] 1 8 (drawn_value other_oracle) "-"
           sample_run.2 other_run.2 eq_refl eq_refl H1 H2).
Defined.

(** ** The store *)

Lemma max_rowid_ge rows r : r ∈ rows → (id r <= max_rowid rows)%Z.
Proof.
  induction rows as [| h t IH]; [by intros ?%elem_of_nil |].
  intros [-> | Hr]%elem_of_cons; simpl; [lia |]. specialize (IH Hr). lia.
Qed.

Lemma next_rowid_fresh c r : r ∈ adjustments c → (id r < next_rowid c)%Z.
Proof. intros Hr%max_rowid_ge. unfold next_rowid. lia. Qed.

Lemma next_rowid_sequence c : (sqlite_sequence c < next_rowid c)%Z.
Proof. unfold next_rowid. lia. Qed.

Lemma adjust_dangling o df sel st :
  frames st !! df = None → adjust_dataframe o df sel st = (Raise NameError, st).
Proof.
  intros Hd. unfold adjust_dataframe. rewrite bind_run. unfold df_copy.
  by rewrite Hd.
Qed.

(** What a call can do to the connection: nothing, one insert, or closing. *)
Lemma run_call_conn c st :
  conn (run_call c st) = conn st
  ∨ (∃ o, closed (conn st) = false ∧ io_error o = None
          ∧ (c = CallRecord o ∨ ∃ df sel, c = CallAdjust o df sel)
          ∧ conn (run_call c st) = inserted o (conn st))
  ∨ (c = CallClose
     ∧ conn (run_call c st) = {| closed := true;
                                 adjustments := adjustments (conn st);
                                 sqlite_sequence := sqlite_sequence (conn st) |}).
Proof.
  destruct c as [o | o df sel | |]; simpl.
  - rewrite generate_run.
    destruct (closed (conn st)) eqn:Hc; [by left |].
    destruct (io_error o) eqn:Hio; [by left |].
    right; left. exists o. eauto 10.
  - destruct (frames st !! df) as [d |] eqn:Hd.
    + rewrite (adjust_run _ _ _ _ _ Hd). cbv zeta.
      destruct (closed (conn st)) eqn:Hc; [by left |].
      destruct (io_error o) eqn:Hio; [by left |].
      right; left. exists o. eauto 10.
    + rewrite (adjust_dangling _ _ _ _ Hd). by left.
  - unfold get_adjustment_history. destruct (closed (conn st)); by left.
  - right; right. done.
Qed.

(** C3. A call to [adjust_dataframe] that gets through its write (the store
    is open and the insert succeeds) appends exactly one event, whatever the
    call does afterwards, and the event carries the magnitude and sign the
    call drew and the clock's reading.  Every call that returns has appended
    exactly one event, the last of the table, whose magnitude and sign are
    the pair it returns and the pair applied to every selected cell. *)
Theorem adjust_dataframe_records (st : State) (o : Oracle) (df : nat)
    (d : DataFrame) (sel : list string) (r : Result (nat * Q * string)) (st' : State) :
  frames st !! df = Some d →
  adjust_dataframe o df sel st = (r, st') →
  (closed (conn st) = false → io_error o = None →
   ∃ row,
     adjustments (conn st') = adjustments (conn st) ++ [row]
     ∧ random_value row = drawn_value o
     ∧ operation row = drawn_operation o
     ∧ timestamp row = now_isoformat o)
  ∧ ∀ adj magnitude sign, r = Ok (adj, magnitude, sign) →
      ∃ row,
        adjustments (conn st') = adjustments (conn st) ++ [row]
        ∧ last (adjustments (conn st')) = Some row
        ∧ random_value row = magnitude
        ∧ operation row = sign
        ∧ timestamp row = now_isoformat o
        ∧ ∃ a', frames st' !! adj = Some a'
            ∧ ∀ col idx, col ∈ sel → idx < nrows d →
                ∃ c nv, loc_get d idx col = Ok (Scalar c)
                        ∧ adjust_value (Scalar c) (random_value row) (operation row) = Ok nv
                        ∧ loc_get a' idx col = Ok (Scalar nv).
Proof.
  intros Hd Hrun. split.
  - intros Hopen Hio. exists (new_row o (conn st)).
    revert Hrun. rewrite (adjust_run _ _ _ _ _ Hd). cbv zeta.
    rewrite Hopen, Hio. by intros [= _ <-].
  - intros adj v s ->.
    destruct (adjust_ok_inv _ _ _ _ _ _ _ _ _ Hd Hrun)
      as (_ & _ & -> & -> & -> & a' & Hcells & ->).
    exists (new_row o (conn st)). simpl.
    split; [done |]. split; [apply last_snoc |].
    split; [done |]. split; [done |]. split; [done |].
    exists a'. split; [apply lookup_insert_eq |].
    intros col idx Hcol Hidx. by eapply adjusted_frame_selected.
Qed.

Lemma adjust_dataframe_records_witness :
  frames sample_state !! 0 = Some sample_frame
  ∧ adjust_dataframe (sample_oracle 1) 0 ["f1"] sample_state
    = (sample_run.1, sample_run.2)
  ∧ sample_run.1 = Ok (1, drawn_value (sample_oracle 1), "-")
  ∧ (closed (conn sample_state) = false → io_error (sample_oracle 1) = None →
     ∃ row,
       adjustments (conn sample_run.2) = adjustments (conn sample_state) ++ [row]
       ∧ random_value row = drawn_value (sample_oracle 1)
       ∧ operation row = drawn_operation (sample_oracle 1)
       ∧ timestamp row = now_isoformat (sample_oracle 1))
  ∧ ∀ adj magnitude sign, sample_run.1 = Ok (adj, magnitude, sign) →
      ∃ row,
        adjustments (conn sample_run.2) = adjustments (conn sample_state) ++ [row]
        ∧ last (adjustments (conn sample_run.2)) = Some row
        ∧ random_value row = magnitude
        ∧ operation row = sign
        ∧ timestamp row = now_isoformat (sample_oracle 1)
        ∧ ∃ a', frames sample_run.2 !! adj = Some a'
            ∧ ∀ col idx, col ∈ ["f1"] → idx < nrows sample_frame →
                ∃ c nv, loc_get sample_frame idx col = Ok (Scalar c)
                        ∧ adjust_value (Scalar c) (random_value row) (operation row) = Ok nv
                        ∧ loc_get a' idx col = Ok (Scalar nv).
Proof.
  split; [reflexivity |]. split; [apply surjective_pairing |].
  split; [reflexivity |].
  apply (adjust_dataframe_records sample_state (sample_oracle 1) 0 sample_frame ["f1"]);
    [reflexivity | apply surjective_pairing].
Defined.

(** C6. When the insert raises, [adjust_dataframe] raises the same error
    and returns no table: the store holds what it held, the input table is
    untouched, and the copy made at line 46 has had no cell written. *)
Theorem adjust_dataframe_write_failure (st : State) (o : Oracle) (df : nat)
    (d : DataFrame) (sel : list string) (msg : string) :
  frames st !! df = Some d →
  closed (conn st) = false →
  io_error o = Some msg →
  generate_and_store_random o st = (Raise (OperationalError msg), st)
  ∧ ∃ st', adjust_dataframe o df sel st = (Raise (OperationalError msg), st')
      ∧ conn st' = conn st
      ∧ frames st' !! df = Some d
      ∧ frames st' = <[fresh (dom (frames st)) := d]> (frames st).
Proof.
  intros Hd Hopen Hio. split.
  - by rewrite generate_run, Hopen, Hio.
  - rewrite (adjust_run _ _ _ _ _ Hd). cbv zeta. rewrite Hopen, Hio.
    eexists. split; [reflexivity |]. simpl. split; [done |]. split; [| done].
    rewrite lookup_insert_ne; [done |]. symmetry. by eapply fresh_frame_ne.
Qed.

Lemma adjust_dataframe_write_failure_witness :
  frames sample_state !! 0 = Some sample_frame
  ∧ closed (conn sample_state) = false
  ∧ io_error failing_oracle = Some "database or disk is full"
  ∧ generate_and_store_random failing_oracle sample_state
    = (Raise (OperationalError "database or disk is full"), sample_state)
  ∧ ∃ st', adjust_dataframe failing_oracle 0 ["f1"] sample_state
           = (Raise (OperationalError "database or disk is full"), st')
      ∧ conn st' = conn sample_state
      ∧ frames st' !! 0 = Some sample_frame
      ∧ frames st' = <[fresh (dom (frames sample_state)) := sample_frame]> (frames sample_state).
Proof.
  split; [reflexivity |]. split; [reflexivity |]. split; [reflexivity |].
  apply (adjust_dataframe_write_failure sample_state failing_oracle 0 sample_frame ["f1"]);
    reflexivity.
Defined.

(** ** Ordering by timestamp *)

Lemma string_compare_refl s : (s ?= s)%string = Eq.
Proof.
  induction s as [| a s IH]; [done |]. simpl.
  unfold Ascii.compare. by rewrite N.compare_refl.
Qed.

Lemma string_compare_lt_trans a b c :
  (a ?= b)%string = Lt → (b ?= c)%string = Lt → (a ?= c)%string = Lt.
Proof.
  revert b c. induction a as [| x a IH]; intros [| y b] [| z c]; simpl; try done.
  destruct (Ascii.compare x y) eqn:Hxy, (Ascii.compare y z) eqn:Hyz; try done.
  - apply Ascii.compare_eq_iff in Hxy as ->. rewrite Hyz. apply IH.
  - apply Ascii.compare_eq_iff in Hxy as ->. by rewrite Hyz.
  - apply Ascii.compare_eq_iff in Hyz as ->. by rewrite Hxy.
  - unfold Ascii.compare in *. rewrite N.compare_lt_iff in Hxy, Hyz.
    intros _ _.
    assert ((Ascii.N_of_ascii x ?= Ascii.N_of_ascii z)%N = Lt) as ->; [| done].
    apply N.compare_lt_iff. lia.
Qed.

Lemma string_leb_alt a b :
  String.leb a b = true ↔ a = b ∨ (a ?= b)%string = Lt.
Proof.
  unfold String.leb. destruct (a ?= b)%string eqn:H.
  - apply String.compare_eq_iff in H. tauto.
  - tauto.
  - split; [done |]. intros [-> | ?]; [| done].
    by rewrite string_compare_refl in H.
Qed.

Lemma string_leb_trans a b c :
  String.leb a b = true → String.leb b c = true → String.leb a c = true.
Proof.
  rewrite !string_leb_alt. intros [-> | Hab] [-> | Hbc]; auto.
  right. by eapply string_compare_lt_trans.
Qed.



#[local] Instance not_older_trans : Transitive Spec.not_older.
Proof. intros a b c Hab Hbc. unfold Spec.not_older in *. by eapply string_leb_trans. Qed.

Lemma insert_desc_perm r l : insert_desc r l ≡ₚ r :: l.
Proof.
  induction l as [| h t IH]; [done |]. simpl.
  destruct (String.ltb (timestamp r) (timestamp h)); [| done].
  rewrite IH. apply Permutation_swap.
Qed.


Lemma order_by_timestamp_desc_perm rows : order_by_timestamp_desc rows ≡ₚ rows.
Proof.
  induction rows as [| r rows IH]; [done |]. simpl.
  by rewrite insert_desc_perm, IH.
Qed.






(** C5, as stated, fails: called with an empty selection on a fresh store
    the transform returns the table as it was and creates a history row. *)
Lemma empty_selection_creates_row :
  adjust_dataframe (sample_oracle 0) 0 [] sample_state = (empty_run.1, empty_run.2)
  ∧ empty_run.1 = Ok (1, drawn_value (sample_oracle 0), "+")
  ∧ frames empty_run.2 !! 1 = Some sample_frame
  ∧ adjustments (conn sample_state) = []
  ∧ length (adjustments (conn empty_run.2)) = 1
  ∧ adjustments (conn empty_run.2) ≠ adjustments (conn sample_state).
Proof.
  split; [apply surjective_pairing |].
  repeat split; try reflexivity. by vm_compute.
Qed.

(** C5 (amended). Called with an empty selection on an open store whose
    write succeeds, [adjust_dataframe] validates nothing: it returns a table
    equal to the input, leaves the input as it was, and appends one history
    row.  The caller in [main] rejects an empty selection before the call,
    and then the table and the history stay as they were. *)
Theorem adjust_dataframe_empty_selection (st : State) (o : Oracle) (df : nat)
    (d : DataFrame) :
  frames st !! df = Some d →
  closed (conn st) = false →
  io_error o = None →
  (∃ adj magnitude sign st',
      adjust_dataframe o df [] st = (Ok (adj, magnitude, sign), st')
      ∧ frames st' !! adj = Some d
      ∧ frames st' !! df = Some d
      ∧ ∃ row, adjustments (conn st') = adjustments (conn st) ++ [row]
               ∧ random_value row = magnitude ∧ operation row = sign)
  ∧ apply_random_adjustment o df [] st = (Ok None, st).
Proof.
  intros Hd Hopen Hio. split; [| done].
  exists (fresh (dom (frames st))), (drawn_value o), (drawn_operation o).
  eexists. rewrite (adjust_run _ _ _ _ _ Hd). cbv zeta. rewrite Hopen, Hio.
  split; [reflexivity |]. simpl. split; [apply lookup_insert_eq |]. split.
  - rewrite lookup_insert_ne; [done |]. symmetry. by eapply fresh_frame_ne.
  - by exists (new_row o (conn st)).
Qed.

Lemma adjust_dataframe_empty_selection_witness :
  frames sample_state !! 0 = Some sample_frame
  ∧ closed (conn sample_state) = false
  ∧ io_error (sample_oracle 0) = None
  ∧ (∃ adj magnitude sign st',
        adjust_dataframe (sample_oracle 0) 0 [] sample_state
          = (Ok (adj, magnitude, sign), st')
        ∧ frames st' !! adj = Some sample_frame
        ∧ frames st' !! 0 = Some sample_frame
        ∧ ∃ row, adjustments (conn st') = adjustments (conn sample_state) ++ [row]
                 ∧ random_value row = magnitude ∧ operation row = sign)
  ∧ apply_random_adjustment (sample_oracle 0) 0 [] sample_state = (Ok None, sample_state).
Proof.
  split; [reflexivity |]. split; [reflexivity |]. split; [reflexivity |].
  apply (adjust_dataframe_empty_selection sample_state (sample_oracle 0) 0 sample_frame);
    reflexivity.
Defined.

Lemma closed_conn_fixed c st :
  closed (conn st) = true → conn (run_call c st) = conn st.
Proof.
  intros Hc. destruct (run_call_conn c st) as [H | [(o & Ho & _) | [_ ->]]].
  - done.
  - congruence.
  - rewrite <- Hc. apply conn_id.
Qed.

Lemma closed_conn_fixed_calls cs st :
  closed (conn st) = true → conn (run_calls cs st) = conn st.
Proof.
  revert st. induction cs as [| c cs IH]; intros st Hc; [done |]. simpl.
  rewrite IH; rewrite closed_conn_fixed; done.
Qed.

(** C7. After [close] the store is closed: recording, adjusting and reading
    the history each raise the closed-database error and insert nothing,
    and no later sequence of calls opens the store again or changes its
    rows.  On an open store no call but [close] closes it. *)
Theorem closed_store_rejects (st : State) (o : Oracle) (df : nat) (d : DataFrame)
    (sel : list string) (cs : list call) :
  frames st !! df = Some d →
  let stc := (close st).2 in
  (close st).1 = Ok tt
  ∧ closed (conn stc) = true
  ∧ adjustments (conn stc) = adjustments (conn st)
  ∧ generate_and_store_random o stc = (Raise ProgrammingError, stc)
  ∧ (∃ st', adjust_dataframe o df sel stc = (Raise ProgrammingError, st')
            ∧ conn st' = conn stc)
  ∧ get_adjustment_history stc = (Raise ProgrammingError, stc)
  ∧ closed (conn (run_calls cs stc)) = true
  ∧ adjustments (conn (run_calls cs stc)) = adjustments (conn st)
  ∧ ∀ c, closed (conn st) = false → closed (conn (run_call c st)) = true →
         c = CallClose.
Proof.
  intros Hd stc.
  assert (closed (conn stc) = true) as Hc by done.
  split; [done |]. split; [done |]. split; [done |].
  split; [by rewrite generate_run, Hc |].
  split.
  { assert (frames stc !! df = Some d) as Hd' by done.
    rewrite (adjust_run _ _ _ _ _ Hd'). cbv zeta. rewrite Hc. by eexists. }
  split; [unfold get_adjustment_history; by rewrite Hc |].
  rewrite (closed_conn_fixed_calls cs stc Hc).
  split; [done |]. split; [done |].
  intros c Hopen Hclosed.
  destruct (run_call_conn c st) as [H | [(o' & _ & _ & _ & H) | [-> _]]].
  - congruence.
  - by rewrite H in Hclosed.
  - done.
Qed.

Lemma closed_store_rejects_witness :
  frames sample_state !! 0 = Some sample_frame
  ∧ (close sample_state).1 = Ok tt
  ∧ closed (conn closed_state) = true
  ∧ adjustments (conn closed_state) = adjustments (conn sample_state)
  ∧ generate_and_store_random (sample_oracle 0) closed_state
    = (Raise ProgrammingError, closed_state)
  ∧ (∃ st', adjust_dataframe (sample_oracle 0) 0 ["f1"] closed_state
            = (Raise ProgrammingError, st')
            ∧ conn st' = conn closed_state)
  ∧ get_adjustment_history closed_state = (Raise ProgrammingError, closed_state)
  ∧ closed (conn (run_calls later_calls closed_state)) = true
  ∧ adjustments (conn (run_calls later_calls closed_state)) = adjustments (conn sample_state)
  ∧ ∀ c, closed (conn sample_state) = false →
         closed (conn (run_call c sample_state)) = true → c = CallClose.
Proof.
  split; [reflexivity |].
  apply (closed_store_rejects sample_state (sample_oracle 0) 0 sample_frame ["f1"] later_calls).
  reflexivity.
Defined.

Lemma ids_increasing_insert o c :
  Spec.ids_increasing (adjustments c) →
  Spec.ids_increasing (adjustments (inserted o c)).
Proof.
  unfold Spec.ids_increasing. simpl. rewrite fmap_app. intros Hs.
  apply StronglySorted_app_2; [| done | repeat constructor].
  intros x1 x2 (r & -> & Hr)%list_elem_of_fmap Hx2. simpl in Hx2.
  apply list_elem_of_singleton in Hx2 as ->. by apply next_rowid_fresh.
Qed.

Lemma increasing_NoDup (l : list Z) : StronglySorted Z.lt l → NoDup l.
Proof.
  induction 1 as [| x l _ IH Hx]; constructor; [| done].
  intros Hin. rewrite Forall_forall in Hx. specialize (Hx x Hin). lia.
Qed.

Lemma run_call_rows c st :
  adjustments (conn st) `prefix_of` adjustments (conn (run_call c st))
  ∧ (Spec.ids_increasing (adjustments (conn st)) →
     Spec.ids_increasing (adjustments (conn (run_call c st)))).
Proof.
  destruct (run_call_conn c st) as [-> | [(o & _ & _ & _ & ->) | [_ ->]]].
  - done.
  - split; [by apply prefix_app_r | apply ids_increasing_insert].
  - done.
Qed.

(** C8. A successful record gives the new event an id above every id in the
    table and above every id given before, and appends it; along any
    sequence of calls the rows present stay as a prefix of the table
    (nothing is updated or deleted) and the ids stay strictly increasing in
    insertion order, hence unique. *)
Theorem ids_strictly_increasing (st : State) (cs : list call) (o : Oracle) :
  Spec.ids_increasing (adjustments (conn st)) →
  let st' := run_calls cs st in
  adjustments (conn st) `prefix_of` adjustments (conn st')
  ∧ Spec.ids_increasing (adjustments (conn st'))
  ∧ NoDup (id <$> adjustments (conn st'))
  ∧ ∀ magnitude sign st'',
      generate_and_store_random o st' = (Ok (magnitude, sign), st'') →
      ∃ row, adjustments (conn st'') = adjustments (conn st') ++ [row]
             ∧ (∀ r0, r0 ∈ adjustments (conn st') → (id r0 < id row)%Z)
             ∧ (sqlite_sequence (conn st') < id row)%Z
             ∧ sqlite_sequence (conn st'') = id row.
Proof.
  intros Hinc st'.
  assert (adjustments (conn st) `prefix_of` adjustments (conn st')
          ∧ Spec.ids_increasing (adjustments (conn st'))) as [Hpre Hinc'].
  { subst st'. revert st Hinc. induction cs as [| c cs IH]; intros st Hinc; [done |].
    simpl. destruct (run_call_rows c st) as [Hp Hi].
    destruct (IH (run_call c st) (Hi Hinc)) as [Hp' Hi'].
    split; [by etrans | done]. }
  split; [done |]. split; [done |]. split.
  - by apply increasing_NoDup.
  - intros v s st''. rewrite generate_run.
    destruct (closed (conn st')); [done |].
    destruct (io_error o); [done |].
    intros [= <- <- <-]. exists (new_row o (conn st')). simpl.
    split; [done |]. split; [apply next_rowid_fresh |].
    split; [apply next_rowid_sequence | done].
Qed.

Lemma ids_strictly_increasing_witness :
  Spec.ids_increasing (adjustments (conn recorded_state))
  ∧ id <$> adjustments (conn recorded_state) = [1]%Z
  ∧ id <$> adjustments (conn (run_calls following_calls recorded_state)) = [1; 2; 3]%Z
  ∧ adjustments (conn recorded_state)
      `prefix_of` adjustments (conn (run_calls following_calls recorded_state))
  ∧ Spec.ids_increasing (adjustments (conn (run_calls following_calls recorded_state)))
  ∧ NoDup (id <$> adjustments (conn (run_calls following_calls recorded_state)))
  ∧ ∀ magnitude sign st'',
      generate_and_store_random (sample_oracle 0) (run_calls following_calls recorded_state)
        = (Ok (magnitude, sign), st'') →
      ∃ row, adjustments (conn st'')
             = adjustments (conn (run_calls following_calls recorded_state)) ++ [row]
             ∧ (∀ r0, r0 ∈ adjustments (conn (run_calls following_calls recorded_state)) →
                      (id r0 < id row)%Z)
             ∧ (sqlite_sequence (conn (run_calls following_calls recorded_state)) < id row)%Z
             ∧ sqlite_sequence (conn st'') = id row.
Proof.
  assert (Spec.ids_increasing (adjustments (conn recorded_state))) as Hinc.
  { unfold Spec.ids_increasing. vm_compute. repeat constructor. }
  split; [exact Hinc |]. split; [reflexivity |]. split; [reflexivity |].
  exact (ids_strictly_increasing recorded_state following_calls (sample_oracle 0) Hinc).
Defined.

Lemma drawn_value_range o :
  (0 <= unit_sample o)%Q → (unit_sample o < 1)%Q →
  (1 # 100 <= drawn_value o)%Q ∧ (drawn_value o < 1 # 10)%Q.
Proof.
  intros H0 H1. unfold drawn_value, np_random_uniform. split; lra.
Qed.

Lemma drawn_operation_cases o :
  drawn_operation o = "+" ∨ drawn_operation o = "-".
Proof.
  unfold drawn_operation, np_random_choice. simpl length.
  pose proof (Nat.mod_upper_bound (choice_index o) 2) as Hlt.
  destruct (choice_index o mod 2) as [| [| n]]; [by left | by right | lia].
Qed.

(** C9. With the generator's unit sample in [0,1), the magnitude a call
    draws, returns and records lies in [0.01, 0.1), and the sign it draws,
    returns and records is "+" or "-". *)
Theorem drawn_magnitude_and_sign (st : State) (o : Oracle) (df : nat)
    (sel : list string) (r : Result (nat * Q * string)) (st' : State) :
  (0 <= unit_sample o)%Q →
  (unit_sample o < 1)%Q →
  adjust_dataframe o df sel st = (r, st') →
  (∀ adj magnitude sign, r = Ok (adj, magnitude, sign) →
     (1 # 100 <= magnitude)%Q ∧ (magnitude < 1 # 10)%Q
     ∧ (sign = "+" ∨ sign = "-"))
  ∧ (∀ row, adjustments (conn st') = adjustments (conn st) ++ [row] →
       (1 # 100 <= random_value row)%Q ∧ (random_value row < 1 # 10)%Q
       ∧ (operation row = "+" ∨ operation row = "-")).
Proof.
  intros H0 H1 Hrun.
  destruct (drawn_value_range o H0 H1) as [Hlo Hhi].
  pose proof (drawn_operation_cases o) as Hop.
  split.
  - intros adj v s ->.
    destruct (frames st !! df) as [d |] eqn:Hd.
    + by destruct (adjust_ok_inv _ _ _ _ _ _ _ _ _ Hd Hrun) as (_ & _ & _ & -> & -> & _).
    + by rewrite (adjust_dangling _ _ _ _ Hd) in Hrun.
  - intros row Hrow.
    assert (conn st' = conn (run_call (CallAdjust o df sel) st)) as Hst'
      by (simpl; by rewrite Hrun).
    destruct (run_call_conn (CallAdjust o df sel) st)
      as [H | [(o' & _ & _ & [[=] | (df' & sel' & [= <- _ _])] & H) | [[=] _]]];
      rewrite <- Hst' in H; rewrite H in Hrow.
    + apply (f_equal length) in Hrow. rewrite length_app in Hrow. simpl in Hrow. lia.
    + simpl in Hrow. apply app_inj_tail in Hrow as [_ <-]. done.
Qed.

Lemma drawn_magnitude_and_sign_witness :
  (0 <= unit_sample (sample_oracle 1))%Q
  ∧ (unit_sample (sample_oracle 1) < 1)%Q
  ∧ adjust_dataframe (sample_oracle 1) 0 ["f1"] sample_state
    = (sample_run.1, sample_run.2)
  ∧ sample_run.1 = Ok (1, drawn_value (sample_oracle 1), "-")
  ∧ (∀ adj magnitude sign, sample_run.1 = Ok (adj, magnitude, sign) →
       (1 # 100 <= magnitude)%Q ∧ (magnitude < 1 # 10)%Q
       ∧ (sign = "+" ∨ sign = "-"))
  ∧ (∀ row, adjustments (conn sample_run.2) = adjustments (conn sample_state) ++ [row] →
       (1 # 100 <= random_value row)%Q ∧ (random_value row < 1 # 10)%Q
       ∧ (operation row = "+" ∨ operation row = "-")).
Proof.
  assert (0 <= unit_sample (sample_oracle 1))%Q as H0 by (by vm_compute).
  assert (unit_sample (sample_oracle 1) < 1)%Q as H1 by reflexivity.
  split; [exact H0 |]. split; [exact H1 |].
  split; [apply surjective_pairing |]. split; [reflexivity |].
  exact (drawn_magnitude_and_sign sample_state (sample_oracle 1) 0 ["f1"]
           sample_run.1 sample_run.2 H0 H1 (surjective_pairing sample_run)).
Defined.

(** * More of the program *)

(** ** When [adjust_dataframe] returns and what it raises *)

Lemma for_app {S A} (l1 l2 : list A) (body : A → StateExn S unit) s :
  for_ (l1 ++ l2) body s =
  match for_ l1 body s with
  | (Ok _, s') => for_ l2 body s'
  | (Raise e, s') => (Raise e, s')
  end.
Proof.
  revert s. induction l1 as [| x l1 IH]; intros s; [done |].
  simpl app. rewrite !for_cons. destruct (body x s) as [[[] | e] s1]; [apply IH | done].
Qed.

Lemma adjust_value_text_raises c v op nv :
  adjust_value (Scalar c) v op = Ok nv → is_text c = false.
Proof. by destruct c. Qed.

Lemma adjust_cells_returns d v op sel a :
  (∃ a', adjust_cells d v op sel a = (Ok tt, a')) ↔
  ∀ col idx, col ∈ sel → idx < nrows d →
    ∃ c, loc_get d idx col = Ok (Scalar c) ∧ is_text c = false.
Proof.
  split.
  - intros [a' Hrun] col idx Hcol Hidx.
    destruct (adjust_cells_ok _ _ _ _ _ _ Hrun) as (_ & _ & Hall).
    destruct (Hall col idx Hcol Hidx) as [nv (c & Hc & Hv)%written_scalar].
    exists c. split; [done |]. by eapply adjust_value_text_raises.
  - apply adjust_cells_total.
Qed.



Lemma float_cell_written d v op col idx :
  float_cell d col idx ↔ is_Some (written d v op col idx).
Proof.
  split.
  - intros (c & Hc & Hfloat). destruct (adjust_value_float c v op Hfloat) as [nv Hnv].
    exists nv. apply written_scalar. eauto.
  - intros [nv (c & Hc & Hv)%written_scalar]. exists c. split; [done |].
    by eapply adjust_value_text_raises.
Qed.

Lemma step_cell_raises d v op col idx e a :
  cell_exception d v op col idx = Some e →
  step_cell d v op col idx a = (Raise e, a).
Proof.
  unfold cell_exception, step_cell.
  destruct (loc_get d idx col) as [cv | e']; [| by intros [= ->]].
  destruct (adjust_value cv v op) as [nv | e']; [done | by intros [= ->]].
Qed.

Lemma rows_loop_total d v op col idxs a :
  (∀ i, i ∈ idxs → float_cell d col i) →
  ∃ a', for_ idxs (step_cell d v op col) a = (Ok tt, a').
Proof.
  intros Hall. apply for_total. intros i a1 Hi.
  destruct (proj1 (float_cell_written d v op col i) (Hall i Hi)) as [nv Hnv].
  eexists. by apply step_cell_written.
Qed.

Lemma adjust_cells_first_failure d v op pre col post idx e a :
  cells_before d pre col idx → idx < nrows d →
  cell_exception d v op col idx = Some e →
  ∃ a', adjust_cells d v op (pre ++ col :: post) a = (Raise e, a').
Proof.
  intros [Hpre Hrows] Hidx Hexn. unfold adjust_cells. rewrite for_app.
  destruct (adjust_cells_total d v op pre a) as [a1 Ha1].
  { intros c i Hc Hi. by apply Hpre. }
  unfold adjust_cells in Ha1. rewrite Ha1, for_cons.
  assert (seq 0 (nrows d) = seq 0 idx ++ idx :: seq (S idx) (nrows d - S idx)) as ->.
  { replace (nrows d) with (idx + S (nrows d - S idx)) at 1 by lia.
    by rewrite seq_app. }
  rewrite for_app.
  destruct (rows_loop_total d v op col (seq 0 idx) a1) as [a2 ->].
  { intros i Hi%elem_of_seq. apply Hrows. lia. }
  rewrite for_cons, (step_cell_raises _ _ _ _ _ _ _ Hexn). eauto.
Qed.

(** X2. On an open store whose write succeeds, [adjust_dataframe] raises the
    exception of the first cell, in the order of the loops (selected columns
    in order, rows in order), that is not a float under one label; by then
    the history row is written, and the input table is left as it was. *)
Theorem adjust_dataframe_first_failure (st : State) (o : Oracle) (df : nat)
    (d : DataFrame) (pre : list string) (col : string) (post : list string)
    (idx : nat) (e : exn) :
  frames st !! df = Some d →
  closed (conn st) = false →
  io_error o = None →
  cells_before d pre col idx →
  idx < nrows d →
  cell_exception d (drawn_value o) (drawn_operation o) col idx = Some e →
  ∃ st', adjust_dataframe o df (pre ++ col :: post) st = (Raise e, st')
         ∧ conn st' = inserted o (conn st)
         ∧ frames st' !! df = Some d.
Proof.
  intros Hd Hopen Hio Hbefore Hidx Hexn.
  destruct (adjust_cells_first_failure d (drawn_value o) (drawn_operation o)
              pre col post idx e d Hbefore Hidx Hexn) as [a' Hcells].
  rewrite (adjust_run _ _ _ _ _ Hd). cbv zeta. rewrite Hopen, Hio, Hcells.
  cbn [fst snd]. eexists. split; [reflexivity |]. split; [done |]. simpl.
  rewrite lookup_insert_ne; [done |]. symmetry. by eapply fresh_frame_ne.
Qed.

Lemma adjust_dataframe_first_failure_witness :
  frames sample_state !! 0 = Some sample_frame
  ∧ closed (conn sample_state) = false
  ∧ io_error (sample_oracle 1) = None
  ∧ cells_before sample_frame ["f1"] "f3" 0
  ∧ 0 < nrows sample_frame
  ∧ cell_exception sample_frame (drawn_value (sample_oracle 1))
      (drawn_operation (sample_oracle 1)) "f3" 0 = Some KeyError
  ∧ ∃ st', adjust_dataframe (sample_oracle 1) 0 (["f1"] ++ "f3" :: ["f2"]) sample_state
           = (Raise KeyError, st')
         ∧ conn st' = inserted (sample_oracle 1) (conn sample_state)
         ∧ frames st' !! 0 = Some sample_frame.
Proof.
  assert (cells_before sample_frame ["f1"] "f3" 0) as Hbefore.
  { split.
    - intros c i ->%list_elem_of_singleton Hi.
      assert (i = 0 ∨ i = 1) as [-> | ->] by (simpl in Hi; lia);
        eexists; split; reflexivity.
    - intros i Hi. lia. }
  assert (0 < nrows sample_frame) as Hidx by (simpl; lia).
  split; [reflexivity |]. split; [reflexivity |]. split; [reflexivity |].
  split; [exact Hbefore |]. split; [exact Hidx |]. split; [reflexivity |].
  exact (adjust_dataframe_first_failure sample_state (sample_oracle 1) 0 sample_frame
           ["f1"] "f3" ["f2"] 0 KeyError eq_refl eq_refl eq_refl Hbefore Hidx eq_refl).
Defined.

Lemma adjust_cells_empty_index d v op sel a :
  nrows d = 0 → adjust_cells d v op sel a = (Ok tt, a).
Proof.
  intros Hn. unfold adjust_cells. rewrite Hn. simpl.
  induction sel as [| col sel IH]; [done |]. by rewrite for_cons.
Qed.

(** X3. A table without rows passes any selection, labels it does not have
    included: on an open store whose write succeeds the call returns a copy
    equal to the input and records its row. *)
Theorem adjust_dataframe_no_rows (st : State) (o : Oracle) (df : nat)
    (d : DataFrame) (sel : list string) :
  frames st !! df = Some d →
  closed (conn st) = false →
  io_error o = None →
  nrows d = 0 →
  ∃ adj magnitude sign st',
    adjust_dataframe o df sel st = (Ok (adj, magnitude, sign), st')
    ∧ adj ≠ df
    ∧ frames st' !! adj = Some d
    ∧ adjustments (conn st') = adjustments (conn st) ++ [new_row o (conn st)].
Proof.
  intros Hd Hopen Hio Hn.
  rewrite (adjust_run _ _ _ _ _ Hd). cbv zeta.
  rewrite Hopen, Hio, (adjust_cells_empty_index _ _ _ _ _ Hn). cbn [fst snd].
  eexists _, _, _, _. split; [reflexivity |].
  split; [symmetry; by eapply fresh_frame_ne |].
  split; [apply lookup_insert_eq | done].
Qed.

Lemma adjust_dataframe_no_rows_witness :
  frames empty_frame_state !! 0 = Some empty_frame
  ∧ closed (conn empty_frame_state) = false
  ∧ io_error (sample_oracle 0) = None
  ∧ nrows empty_frame = 0
  ∧ ∃ adj magnitude sign st',
      adjust_dataframe (sample_oracle 0) 0 ["f1"; "no such column"] empty_frame_state
        = (Ok (adj, magnitude, sign), st')
      ∧ adj ≠ 0
      ∧ frames st' !! adj = Some empty_frame
      ∧ adjustments (conn st')
        = adjustments (conn empty_frame_state)
          ++ [new_row (sample_oracle 0) (conn empty_frame_state)].
Proof.
  split; [reflexivity |]. split; [reflexivity |]. split; [reflexivity |].
  split; [reflexivity |].
  exact (adjust_dataframe_no_rows empty_frame_state (sample_oracle 0) 0 empty_frame
           ["f1"; "no such column"] eq_refl eq_refl eq_refl eq_refl).
Defined.

(** X4. A selected label that two columns carry makes the call raise as
    soon as the table has a row: [df.loc] gives a [Series] there, not a
    value. *)
Theorem adjust_dataframe_duplicate_label (st : State) (o : Oracle) (df : nat)
    (d : DataFrame) (sel : list string) (col : string)
    (c1 c2 : string * list cell) (others : list (string * list cell))
    (r : Result (nat * Q * string)) (st' : State) :
  frames st !! df = Some d →
  labelled col d = c1 :: c2 :: others →
  col ∈ sel →
  0 < nrows d →
  adjust_dataframe o df sel st = (r, st') →
  ∃ e, r = Raise e.
Proof.
  intros Hd Hlab Hcol Hrows Hrun. destruct r as [[[adj v] s] | e]; [| eauto].
  exfalso.
  destruct (adjust_ok_inv _ _ _ _ _ _ _ _ _ Hd Hrun)
    as (_ & _ & _ & _ & _ & a' & Hcells & _).
  destruct (proj1 (adjust_cells_returns d v s sel d) (ex_intro _ a' Hcells) col 0 Hcol Hrows)
    as (c & Hget & _).
  apply loc_get_scalar in Hget as (c0 & Hone & _). by rewrite Hlab in Hone.
Qed.

Lemma adjust_dataframe_duplicate_label_witness :
  frames twice_state !! 0 = Some twice_frame
  ∧ labelled "f1" twice_frame = ("f1", [Num (1 # 2)]) :: ("f1", [Num (1 # 4)]) :: []
  ∧ "f1" ∈ ["f1"]
  ∧ 0 < nrows twice_frame
  ∧ adjust_dataframe (sample_oracle 0) 0 ["f1"] twice_state
    = (Raise ValueError, (adjust_dataframe (sample_oracle 0) 0 ["f1"] twice_state).2)
  ∧ ∃ e, @Raise (nat * Q * string) ValueError = Raise e.
Proof.
  assert ("f1" ∈ ["f1"]) as Hcol by (by left).
  assert (0 < nrows twice_frame) as Hrows by (simpl; lia).
  assert (adjust_dataframe (sample_oracle 0) 0 ["f1"] twice_state
          = (Raise ValueError, (adjust_dataframe (sample_oracle 0) 0 ["f1"] twice_state).2))
    as Hrun by reflexivity.
  split; [reflexivity |]. split; [reflexivity |]. split; [exact Hcol |].
  split; [exact Hrows |]. split; [exact Hrun |].
  exact (adjust_dataframe_duplicate_label twice_state (sample_oracle 0) 0 twice_frame
           ["f1"] "f1" _ _ [] _ _ eq_refl eq_refl Hcol Hrows Hrun).
Defined.

(** ** The returned table in closed form *)

Lemma Forall2_with_elem {A B} (R : A → B → Prop) l k :
  Forall2 R l k → Forall2 (λ x y, x ∈ l ∧ R x y) l k.
Proof.
  intros H. induction H as [| x y l k Hxy _ IH]; constructor.
  - split; [by left | done].
  - eapply Forall2_impl; [exact IH |]. intros x' y' [Hin HR]. split; [by right | done].
Qed.

Lemma Forall2_fmap_eq {A B} (f : A → B) l k :
  Forall2 (λ x y, y = f x) l k → k = f <$> l.
Proof. induction 1 as [| x y l k -> _ IH]; [done |]. simpl. by f_equal. Qed.

Lemma adjust_cells_bulk d v op sel a' :
  adjust_cells d v op sel d = (Ok tt, a') → a' = bulk_adjust d v op sel.
Proof.
  intros Hrun. destruct (adjust_cells_ok _ _ _ _ _ _ Hrun) as (Hn & Hrel & Hall).
  destruct a' as [n cols]. simpl in Hn, Hrel. subst n. unfold bulk_adjust. f_equal.
  apply Forall2_fmap_eq. eapply Forall2_impl; [apply Forall2_with_elem, Hrel |].
  intros c c' [Hin Hc]. simpl in Hc.
  destruct (decide (c.1 ∈ sel)) as [Hsel | Hout].
  - destruct Hc as (Hl & Hlen & Hcells). destruct c as [s l], c' as [s' l'].
    simpl in *. subst s'. f_equal. apply list_eq. intros i.
    rewrite list_lookup_imap. destruct (l !! i) as [x |] eqn:Hx; simpl.
    + destruct (Hcells i x Hx) as [Hin' Hout']. destruct (decide (i < nrows d)) as [Hi | Hi].
      * rewrite Hin'; [| done].
        destruct (Hall s i Hsel Hi) as [nv Hw]. rewrite Hw.
        apply written_scalar in Hw as (c0 & Hget & Hv).
        apply loc_get_scalar in Hget as (cu & Hlab & Hcu).
        assert ((s, l) ∈ labelled s d) as Hmem
          by (unfold labelled; apply list_elem_of_filter; by split).
        rewrite Hlab in Hmem. apply list_elem_of_singleton in Hmem as <-.
        simpl in Hcu. rewrite Hx in Hcu. injection Hcu as <-.
        unfold adjust_or_keep. by rewrite Hv.
      * apply Hout'. tauto.
    + apply lookup_ge_None. rewrite Hlen. by apply lookup_ge_None.
  - eapply col_rel_outside; [| exact Hc]. intros i [? _]. done.
Qed.

Lemma bulk_adjust_ext d v op sel sel' :
  (∀ c, c ∈ sel ↔ c ∈ sel') → bulk_adjust d v op sel = bulk_adjust d v op sel'.
Proof.
  intros Hsame. unfold bulk_adjust. f_equal. apply list_fmap_ext.
  intros _ c _. destruct (decide (c.1 ∈ sel)) as [H | H], (decide (c.1 ∈ sel')) as [H' | H'];
    try done; exfalso; apply Hsame in H || apply Hsame in H'; done.
Qed.

(** X5. The table a call returns is the input with one elementwise change:
    in every column whose label is selected, every cell at a row of the
    index is replaced by its adjusted value, and all else is kept. *)
Theorem adjust_dataframe_bulk (st : State) (o : Oracle) (df : nat) (d : DataFrame)
    (sel : list string) (adj : nat) (magnitude : Q) (sign : string) (st' : State) :
  frames st !! df = Some d →
  adjust_dataframe o df sel st = (Ok (adj, magnitude, sign), st') →
  frames st' !! adj = Some (bulk_adjust d magnitude sign sel).
Proof.
  intros Hd Hrun.
  destruct (adjust_ok_inv _ _ _ _ _ _ _ _ _ Hd Hrun)
    as (_ & _ & _ & _ & _ & a' & Hcells & ->).
  simpl. rewrite lookup_insert_eq. f_equal. by apply adjust_cells_bulk.
Qed.

Lemma adjust_dataframe_bulk_witness :
  frames sample_state !! 0 = Some sample_frame
  ∧ adjust_dataframe (sample_oracle 1) 0 ["f1"] sample_state
    = (Ok (1, drawn_value (sample_oracle 1), "-"), sample_run.2)
  ∧ frames sample_run.2 !! 1
    = Some (bulk_adjust sample_frame (drawn_value (sample_oracle 1)) "-" ["f1"]).
Proof.
  assert (adjust_dataframe (sample_oracle 1) 0 ["f1"] sample_state
          = (Ok (1, drawn_value (sample_oracle 1), "-"), sample_run.2)) as Hrun
    by reflexivity.
  split; [reflexivity |]. split; [exact Hrun |].
  exact (adjust_dataframe_bulk sample_state (sample_oracle 1) 0 sample_frame ["f1"]
           1 (drawn_value (sample_oracle 1)) "-" sample_run.2 eq_refl Hrun).
Defined.

(** X6. The selection counts as a set: when a call returns, the call with
    any selection of the same labels, in another order or with repetitions,
    returns the same result and leaves the same state. *)
Theorem adjust_dataframe_selection_set (st : State) (o : Oracle) (df : nat)
    (d : DataFrame) (sel sel' : list string) (adj : nat) (magnitude : Q)
    (sign : string) (st' : State) :
  frames st !! df = Some d →
  (∀ c, c ∈ sel ↔ c ∈ sel') →
  adjust_dataframe o df sel st = (Ok (adj, magnitude, sign), st') →
  adjust_dataframe o df sel' st = (Ok (adj, magnitude, sign), st').
Proof.
  intros Hd Hsame Hrun.
  destruct (adjust_ok_inv _ _ _ _ _ _ _ _ _ Hd Hrun)
    as (Hopen & Hio & -> & -> & -> & a' & Hcells & ->).
  destruct (proj2 (adjust_cells_returns d (drawn_value o) (drawn_operation o) sel' d))
    as [a'' Hcells'].
  { intros col idx Hcol%Hsame Hidx.
    by apply (proj1 (adjust_cells_returns d (drawn_value o) (drawn_operation o) sel d)); eauto. }
  rewrite (adjust_run _ _ _ _ _ Hd). cbv zeta. rewrite Hopen, Hio, Hcells'. cbn [fst snd].
  apply adjust_cells_bulk in Hcells as ->. apply adjust_cells_bulk in Hcells' as ->.
  by rewrite (bulk_adjust_ext _ _ _ _ _ Hsame).
Qed.

Lemma adjust_dataframe_selection_set_witness :
  frames sample_state !! 0 = Some sample_frame
  ∧ (∀ c, c ∈ ["f1"; "f2"] ↔ c ∈ ["f2"; "f1"; "f2"])
  ∧ adjust_dataframe (sample_oracle 1) 0 ["f1"; "f2"] sample_state
    = (Ok (1, drawn_value (sample_oracle 1), "-"),
       (adjust_dataframe (sample_oracle 1) 0 ["f1"; "f2"] sample_state).2)
  ∧ adjust_dataframe (sample_oracle 1) 0 ["f2"; "f1"; "f2"] sample_state
    = (Ok (1, drawn_value (sample_oracle 1), "-"),
       (adjust_dataframe (sample_oracle 1) 0 ["f1"; "f2"] sample_state).2).
Proof.
  assert (∀ c, c ∈ ["f1"; "f2"] ↔ c ∈ ["f2"; "f1"; "f2"]) as Hsame.
  { intros c. rewrite !elem_of_cons, !elem_of_nil. tauto. }
  assert (adjust_dataframe (sample_oracle 1) 0 ["f1"; "f2"] sample_state
          = (Ok (1, drawn_value (sample_oracle 1), "-"),
             (adjust_dataframe (sample_oracle 1) 0 ["f1"; "f2"] sample_state).2)) as Hrun
    by reflexivity.
  split; [reflexivity |]. split; [exact Hsame |]. split; [exact Hrun |].
  exact (adjust_dataframe_selection_set sample_state (sample_oracle 1) 0 sample_frame
           ["f1"; "f2"] ["f2"; "f1"; "f2"] 1 (drawn_value (sample_oracle 1)) "-" _
           eq_refl Hsame Hrun).
Defined.

(** ** How a value moves *)

Lemma returned_cell o df sel st d adj v s st' col idx c :
  frames st !! df = Some d →
  adjust_dataframe o df sel st = (Ok (adj, v, s), st') →
  col ∈ sel → idx < nrows d →
  loc_get d idx col = Ok (Scalar c) →
  ∃ a' nv, frames st' !! adj = Some a'
           ∧ adjust_value (Scalar c) v s = Ok nv
           ∧ loc_get a' idx col = Ok (Scalar nv).
Proof.
  intros Hd Hrun Hcol Hidx Hc.
  destruct (adjust_ok_inv _ _ _ _ _ _ _ _ _ Hd Hrun)
    as (_ & _ & _ & _ & _ & a' & Hcells & ->).
  destruct (adjusted_frame_selected _ _ _ _ _ Hcells col idx Hcol Hidx)
    as (c' & nv & Hc' & Hv & Hget).
  rewrite Hc in Hc'. injection Hc' as <-.
  exists a', nv. simpl. by rewrite lookup_insert_eq.
Qed.

Lemma round_half_even_comp t t' :
  (t == t')%Q → Py.round_half_even t = Py.round_half_even t'.
Proof.
  intros Heq. unfold Py.round_half_even.
  rewrite (Qfloor_comp _ _ Heq).
  assert ((t - inject_Z (Qfloor t') ?= 1 # 2) = (t' - inject_Z (Qfloor t') ?= 1 # 2))%Q as ->;
    [| done].
  apply Qcompare_comp; [by rewrite Heq | done].
Qed.

Lemma round_half_even_mono t t' :
  (t <= t')%Q → (Py.round_half_even t <= Py.round_half_even t')%Z.
Proof.
  intros Hle. pose proof (Qfloor_resp_le _ _ Hle) as Hf.
  destruct (round_half_even_cases t) as [[Ht Hr] | [Ht Hr]],
           (round_half_even_cases t') as [[Ht' Hr'] | [Ht' Hr']];
    rewrite ?Ht, ?Ht'; try lia.
  destruct (decide (Qfloor t = Qfloor t')) as [Heq | Hne]; [| lia].
  assert (t == t')%Q as Hsame by (rewrite Heq in Hr; lra).
  rewrite <- Ht, <- Ht', (round_half_even_comp _ _ Hsame). lia.
Qed.

Lemma adjust_value_cases x v op :
  let nv := if decide (op = "+") then (x + v)%Q else (x - v)%Q in
  adjust_value (Scalar (Num x)) v op
  = Ok (Num (if Py.Qltb nv 1
             then if Py.Qltb 0 nv
                  then Py.round_half_even (nv * inject_Z 100000) # 100000
                  else 0
             else 1)%Q).
Proof.
  intros nv. unfold adjust_value, nv. cbn [float_of_cell].
  destruct (decide (op = "+")); unfold Py.add, Py.sub, Py.min, Py.max, Py.lt;
    cbn [Py.value]; change (inject_Z 1) with 1%Q; change (inject_Z 0) with 0%Q.
  - destruct (Py.Qltb (x + v) 1); cbn [Py.value]; [| done].
    destruct (Py.Qltb 0 (x + v)); [| done]. done.
  - destruct (Py.Qltb (x - v) 1); cbn [Py.value]; [| done].
    by destruct (Py.Qltb 0 (x - v)).
Qed.

Lemma adjust_value_mono x x' v op y y' :
  (x <= x')%Q →
  adjust_value (Scalar (Num x)) v op = Ok (Num y) →
  adjust_value (Scalar (Num x')) v op = Ok (Num y') →
  (y <= y')%Q.
Proof.
  intros Hle. rewrite !adjust_value_cases.
  set (nv := if decide (op = "+") then (x + v)%Q else (x - v)%Q).
  set (nv' := if decide (op = "+") then (x' + v)%Q else (x' - v)%Q).
  assert (nv <= nv')%Q as Hnv by (unfold nv, nv'; destruct (decide (op = "+")); lra).
  clearbody nv nv'. intros [= <-] [= <-].
  assert (∀ t, (0 < t)%Q → (t < 1)%Q →
            (0 <= Py.round_half_even (t * inject_Z 100000) <= 100000)%Z) as Hbetween.
  { intros t H0 H1. apply round_half_even_between.
    - change (inject_Z 0) with 0%Q. change (inject_Z 100000) with (100000 # 1)%Q. lra.
    - change (inject_Z 100000) with (100000 # 1)%Q. lra. }
  destruct (Py.Qltb nv 1) eqn:E1; [apply Qltb_true in E1 | apply Qltb_false in E1];
    (destruct (Py.Qltb nv' 1) eqn:E1'; [apply Qltb_true in E1' | apply Qltb_false in E1']);
    (destruct (Py.Qltb 0 nv) eqn:E0; [apply Qltb_true in E0 | apply Qltb_false in E0]);
    (destruct (Py.Qltb 0 nv') eqn:E0'; [apply Qltb_true in E0' | apply Qltb_false in E0']);
    try (exfalso; lra); try done.
  - assert (nv * inject_Z 100000 <= nv' * inject_Z 100000)%Q as Ht.
    { change (inject_Z 100000) with (100000 # 1)%Q. lra. }
    apply round_half_even_mono in Ht. unfold Qle. simpl. lia.
  - destruct (Hbetween nv' E0' E1') as [Hk _]. unfold Qle. simpl. lia.
  - destruct (Hbetween nv E0 E1) as [_ Hk]. unfold Qle. simpl. lia.
Qed.

(** X7. An adjustment keeps the order of values: of two selected numeric
    cells of the input, the one that is not larger comes out not larger. *)
Theorem adjust_dataframe_monotone (st : State) (o : Oracle) (df : nat)
    (d : DataFrame) (sel : list string) (adj : nat) (magnitude : Q) (sign : string)
    (st' : State) (col col' : string) (idx idx' : nat) (x x' : Q) :
  frames st !! df = Some d →
  adjust_dataframe o df sel st = (Ok (adj, magnitude, sign), st') →
  col ∈ sel → idx < nrows d → loc_get d idx col = Ok (Scalar (Num x)) →
  col' ∈ sel → idx' < nrows d → loc_get d idx' col' = Ok (Scalar (Num x')) →
  (x <= x')%Q →
  ∃ a' y y', frames st' !! adj = Some a'
             ∧ loc_get a' idx col = Ok (Scalar (Num y))
             ∧ loc_get a' idx' col' = Ok (Scalar (Num y'))
             ∧ (y <= y')%Q.
Proof.
  intros Hd Hrun Hcol Hidx Hx Hcol' Hidx' Hx' Hle.
  destruct (returned_cell _ _ _ _ _ _ _ _ _ _ _ _ Hd Hrun Hcol Hidx Hx)
    as (a' & nv & Ha' & Hv & Hget).
  destruct (returned_cell _ _ _ _ _ _ _ _ _ _ _ _ Hd Hrun Hcol' Hidx' Hx')
    as (a'' & nv' & Ha'' & Hv' & Hget').
  rewrite Ha' in Ha''. injection Ha'' as <-.
  destruct (adjust_value_num x magnitude sign) as (y & Hy & _).
  destruct (adjust_value_num x' magnitude sign) as (y' & Hy' & _).
  pose proof (adjust_value_mono _ _ _ _ _ _ Hle Hy Hy') as Hyy.
  rewrite Hy in Hv. injection Hv as <-. rewrite Hy' in Hv'. injection Hv' as <-.
  eauto 10.
Qed.

Lemma adjust_dataframe_monotone_witness :
  frames sample_state !! 0 = Some sample_frame
  ∧ adjust_dataframe (sample_oracle 1) 0 ["f1"; "f2"] sample_state
    = (Ok (1, drawn_value (sample_oracle 1), "-"),
       (adjust_dataframe (sample_oracle 1) 0 ["f1"; "f2"] sample_state).2)
  ∧ "f1" ∈ ["f1"; "f2"] ∧ 0 < nrows sample_frame
  ∧ loc_get sample_frame 0 "f1" = Ok (Scalar (Num (2 # 100)))
  ∧ "f2" ∈ ["f1"; "f2"] ∧ 1 < nrows sample_frame
  ∧ loc_get sample_frame 1 "f2" = Ok (Scalar (Num (1 # 2)))
  ∧ (2 # 100 <= 1 # 2)%Q
  ∧ ∃ a' y y',
      frames (adjust_dataframe (sample_oracle 1) 0 ["f1"; "f2"] sample_state).2 !! 1 = Some a'
      ∧ loc_get a' 0 "f1" = Ok (Scalar (Num y))
      ∧ loc_get a' 1 "f2" = Ok (Scalar (Num y'))
      ∧ (y <= y')%Q.
Proof.
  assert (adjust_dataframe (sample_oracle 1) 0 ["f1"; "f2"] sample_state
          = (Ok (1, drawn_value (sample_oracle 1), "-"),
             (adjust_dataframe (sample_oracle 1) 0 ["f1"; "f2"] sample_state).2)) as Hrun
    by reflexivity.
  assert ("f1" ∈ ["f1"; "f2"]) as H1 by (by left).
  assert ("f2" ∈ ["f1"; "f2"]) as H2 by (right; by left).
  assert (0 < nrows sample_frame) as Hi by (simpl; lia).
  assert (1 < nrows sample_frame) as Hi' by (simpl; lia).
  assert (2 # 100 <= 1 # 2)%Q as Hle by (by vm_compute).
  split; [reflexivity |]. split; [exact Hrun |]. split; [exact H1 |].
  split; [exact Hi |]. split; [reflexivity |]. split; [exact H2 |].
  split; [exact Hi' |]. split; [reflexivity |]. split; [exact Hle |].
  exact (adjust_dataframe_monotone sample_state (sample_oracle 1) 0 sample_frame
           ["f1"; "f2"] 1 (drawn_value (sample_oracle 1)) "-" _ "f1" "f2" 0 1
           (2 # 100) (1 # 2) eq_refl Hrun H1 Hi eq_refl H2 Hi' eq_refl Hle).
Defined.




(** X9. A blank (NaN) cell of a selected column comes out as exactly 1 in
    the returned table, whatever the magnitude and the sign. *)
Theorem adjust_dataframe_blank_cell (st : State) (o : Oracle) (df : nat)
    (d : DataFrame) (sel : list string) (adj : nat) (magnitude : Q) (sign : string)
    (st' : State) (col : string) (idx : nat) :
  frames st !! df = Some d →
  adjust_dataframe o df sel st = (Ok (adj, magnitude, sign), st') →
  col ∈ sel → idx < nrows d → loc_get d idx col = Ok (Scalar NaN) →
  ∃ a', frames st' !! adj = Some a' ∧ loc_get a' idx col = Ok (Scalar (Num 1)).
Proof.
  intros Hd Hrun Hcol Hidx Hx.
  destruct (returned_cell _ _ _ _ _ _ _ _ _ _ _ _ Hd Hrun Hcol Hidx Hx)
    as (a' & nv & Ha' & Hv & Hget).
  rewrite adjust_value_nan in Hv. injection Hv as <-. eauto.
Qed.

Lemma adjust_dataframe_blank_cell_witness :
  frames blank_state !! 0 = Some blank_frame
  ∧ adjust_dataframe (sample_oracle 0) 0 ["f1"] blank_state
    = (Ok (1, drawn_value (sample_oracle 0), "+"),
       (adjust_dataframe (sample_oracle 0) 0 ["f1"] blank_state).2)
  ∧ "f1" ∈ ["f1"] ∧ 0 < nrows blank_frame
  ∧ loc_get blank_frame 0 "f1" = Ok (Scalar NaN)
  ∧ ∃ a', frames (adjust_dataframe (sample_oracle 0) 0 ["f1"] blank_state).2 !! 1 = Some a'
          ∧ loc_get a' 0 "f1" = Ok (Scalar (Num 1)).
Proof.
  assert (adjust_dataframe (sample_oracle 0) 0 ["f1"] blank_state
          = (Ok (1, drawn_value (sample_oracle 0), "+"),
             (adjust_dataframe (sample_oracle 0) 0 ["f1"] blank_state).2)) as Hrun
    by reflexivity.
  assert ("f1" ∈ ["f1"]) as Hcol by (by left).
  assert (0 < nrows blank_frame) as Hidx by (simpl; lia).
  split; [reflexivity |]. split; [exact Hrun |]. split; [exact Hcol |].
  split; [exact Hidx |]. split; [reflexivity |].
  exact (adjust_dataframe_blank_cell blank_state (sample_oracle 0) 0 blank_frame ["f1"]
           1 (drawn_value (sample_oracle 0)) "+" _ "f1" 0 eq_refl Hrun Hcol Hidx eq_refl).
Defined.

(** ** More on the store *)

Lemma max_rowid_le rows n :
  (0 <= n)%Z → (∀ r, r ∈ rows → (id r <= n)%Z) → (max_rowid rows <= n)%Z.
Proof.
  intros Hn. induction rows as [| r rows IH]; intros Hall; simpl; [done |].
  apply Z.max_lub.
  - apply Hall. by left.
  - apply IH. intros r' Hr'. apply Hall. by right.
Qed.

Lemma ids_from_one_insert o c : ids_from_one c → ids_from_one (inserted o c).
Proof.
  intros [Hids Hseq].
  assert (next_rowid c = Z.of_nat (S (length (adjustments c)))) as Hnext.
  { unfold next_rowid. rewrite Hseq.
    assert (max_rowid (adjustments c) <= Z.of_nat (length (adjustments c)))%Z.
    { apply max_rowid_le; [lia |]. intros r Hr.
      assert (id r ∈ id <$> adjustments c) as Hin by (by apply list_elem_of_fmap_2).
      rewrite Hids in Hin. apply list_elem_of_fmap in Hin as (k & -> & Hk%elem_of_seq). lia. }
    lia. }
  split; simpl.
  - rewrite fmap_app, length_app, Hids. simpl. rewrite Hnext.
    replace (length (adjustments c) + 1) with (S (length (adjustments c))) by lia.
    by rewrite seq_S, fmap_app.
  - rewrite length_app. simpl. rewrite Hnext. lia.
Qed.

Lemma ids_from_one_call c st : ids_from_one (conn st) → ids_from_one (conn (run_call c st)).
Proof.
  intros H. destruct (run_call_conn c st) as [-> | [(o & _ & _ & _ & ->) | [_ ->]]].
  - done.
  - by apply ids_from_one_insert.
  - done.
Qed.

(** X10. On a database that did not exist when the system was created, the
    ids of the events are 1, 2, ..., n in the order of insertion, after any
    sequence of calls. *)
Theorem fresh_database_ids (f : gmap nat DataFrame) (cs : list call) :
  id <$> adjustments (conn (run_calls cs {| frames := f; conn := init None |}))
  = Z.of_nat <$> seq 1 (length (adjustments
                          (conn (run_calls cs {| frames := f; conn := init None |})))).
Proof.
  assert (∀ st, ids_from_one (conn st) → ids_from_one (conn (run_calls cs st))) as Hinv.
  { induction cs as [| c cs IH]; intros st Hst; [done |]. simpl.
    by apply IH, ids_from_one_call. }
  by apply (Hinv {| frames := f; conn := init None |}).
Qed.

Lemma insert_desc_oldest r l :
  Forall (λ h, String.ltb (timestamp r) (timestamp h) = true) l →
  insert_desc r l = l ++ [r].
Proof.
  induction 1 as [| h l Hh _ IH]; [done |]. simpl. by rewrite Hh, IH.
Qed.

Lemma order_by_clock_increasing rows :
  clock_increasing rows → order_by_timestamp_desc rows = reverse rows.
Proof.
  induction 1 as [| r rows _ IH Hr]; [done |]. simpl.
  rewrite IH, reverse_cons. apply insert_desc_oldest. by apply Forall_reverse.
Qed.

(** X11. When the clock went strictly forward from each record to the next,
    the history is the last 10 events recorded, the latest first. *)
Theorem history_latest_first (st : State) :
  closed (conn st) = false →
  clock_increasing (adjustments (conn st)) →
  get_adjustment_history st = (Ok (take 10 (reverse (adjustments (conn st)))), st).
Proof.
  intros Hopen Hclock. unfold get_adjustment_history.
  by rewrite Hopen, order_by_clock_increasing.
Qed.

Lemma history_latest_first_witness :
  closed (conn timed_state) = false
  ∧ clock_increasing (adjustments (conn timed_state))
  ∧ id <$> adjustments (conn timed_state) = [1; 2; 3]%Z
  ∧ get_adjustment_history timed_state
    = (Ok (take 10 (reverse (adjustments (conn timed_state)))), timed_state).
Proof.
  assert (clock_increasing (adjustments (conn timed_state))) as Hclock.
  { unfold clock_increasing. vm_compute. repeat constructor. }
  split; [reflexivity |]. split; [exact Hclock |]. split; [reflexivity |].
  exact (history_latest_first timed_state eq_refl Hclock).
Defined.

(** X12. On an open store the history holds as many events as the table,
    up to 10; with at most 10 events in the table it holds them all. *)
Theorem history_length (st : State) :
  closed (conn st) = false →
  ∃ l, get_adjustment_history st = (Ok l, st)
       ∧ length l = Nat.min 10 (length (adjustments (conn st)))
       ∧ (length (adjustments (conn st)) ≤ 10 → l ≡ₚ adjustments (conn st)).
Proof.
  intros Hopen. unfold get_adjustment_history. rewrite Hopen.
  pose proof (order_by_timestamp_desc_perm (adjustments (conn st))) as Hperm.
  eexists. split; [reflexivity |]. split.
  - by rewrite length_take, (Permutation_length Hperm).
  - intros Hle. rewrite take_ge; [done |]. by rewrite (Permutation_length Hperm).
Qed.

Lemma history_length_witness :
  closed (conn timed_state) = false
  ∧ ∃ l, get_adjustment_history timed_state = (Ok l, timed_state)
         ∧ length l = Nat.min 10 (length (adjustments (conn timed_state)))
         ∧ (length (adjustments (conn timed_state)) ≤ 10 →
            l ≡ₚ adjustments (conn timed_state)).
Proof.
  split; [reflexivity |]. exact (history_length timed_state eq_refl).
Defined.

Lemma run_calls_rows cs st :
  adjustments (conn st) `prefix_of` adjustments (conn (run_calls cs st))
  ∧ (Spec.ids_increasing (adjustments (conn st)) →
     Spec.ids_increasing (adjustments (conn (run_calls cs st)))).
Proof.
  revert st. induction cs as [| c cs IH]; intros st; [done |]. simpl.
  destruct (run_call_rows c st) as [Hp Hi], (IH (run_call c st)) as [Hp' Hi'].
  split; [by etrans | auto].
Qed.

(** X13. A system created on the database file another one left behind,
    closed or not, is open and holds that one's events in their order; the
    events it then records come after them, and the ids go on strictly
    increasing. *)
Theorem reopened_database (st : State) (cs1 cs2 : list call) (f : gmap nat DataFrame) :
  Spec.ids_increasing (adjustments (conn st)) →
  let c1 := conn (run_calls cs1 st) in
  let st2 := {| frames := f; conn := init (database_file c1) |} in
  closed (conn st2) = false
  ∧ adjustments (conn st2) = adjustments c1
  ∧ next_rowid (conn st2) = next_rowid c1
  ∧ adjustments c1 `prefix_of` adjustments (conn (run_calls cs2 st2))
  ∧ Spec.ids_increasing (adjustments (conn (run_calls cs2 st2))).
Proof.
  intros Hinc c1 st2. split; [done |]. split; [done |]. split; [done |].
  destruct (run_calls_rows cs1 st) as [_ Hi1], (run_calls_rows cs2 st2) as [Hp2 Hi2].
  split; [exact Hp2 |]. apply Hi2, Hi1, Hinc.
Qed.

Lemma reopened_database_witness :
  Spec.ids_increasing (adjustments (conn sample_state))
  ∧ closed (conn (run_calls previous_session sample_state)) = true
  ∧ id <$> adjustments (conn (run_calls next_session reopened_state)) = [1; 2]%Z
  ∧ closed (conn reopened_state) = false
  ∧ adjustments (conn reopened_state)
    = adjustments (conn (run_calls previous_session sample_state))
  ∧ next_rowid (conn reopened_state)
    = next_rowid (conn (run_calls previous_session sample_state))
  ∧ adjustments (conn (run_calls previous_session sample_state))
      `prefix_of` adjustments (conn (run_calls next_session reopened_state))
  ∧ Spec.ids_increasing (adjustments (conn (run_calls next_session reopened_state))).
Proof.
  assert (Spec.ids_increasing (adjustments (conn sample_state))) as Hinc by constructor.
  split; [exact Hinc |]. split; [reflexivity |]. split; [reflexivity |].
  exact (reopened_database sample_state previous_session next_session ∅ Hinc).
Defined.

(** ** [main] *)

Lemma new_column_names_lookup ti l k :
  new_column_names ti l !! k = if decide (k ∈ l) then Some (ti k) else None.
Proof.
  unfold new_column_names. induction l as [| c l IH].
  - destruct (decide (k ∈ [])) as [Hin | _]; [by apply elem_of_nil in Hin | done].
  - rewrite fmap_cons, list_to_map_cons. cbn [fst snd].
    destruct (decide (c = k)) as [-> | Hne].
    + rewrite lookup_insert_eq. destruct (decide (k ∈ k :: l)) as [_ | Hout]; [done |].
      exfalso. apply Hout. by left.
    + rewrite lookup_insert_ne by done. rewrite IH.
      destruct (decide (k ∈ l)) as [Hin | Hout], (decide (k ∈ c :: l)) as [Hin' | Hout'];
        try done.
      * exfalso. apply Hout'. by right.
      * apply elem_of_cons in Hin' as [-> | ?]; done.
Qed.

Lemma elem_of_bxxxx_columns d c :
  c ∈ bxxxx_columns d ↔ startswith_b c = true ∧ c ∈ (columns d).*1.
Proof. unfold bxxxx_columns. by rewrite list_elem_of_filter. Qed.

Lemma rename_form_columns ti d :
  columns (rename d (new_column_names ti (bxxxx_columns d)))
  = (λ c, (if startswith_b c.1 then ti c.1 else c.1, c.2)) <$> columns d.
Proof.
  unfold rename. cbn [columns]. apply list_fmap_ext. intros i c Hc.
  rewrite new_column_names_lookup.
  assert (c.1 ∈ (columns d).*1) as Hin.
  { apply list_elem_of_fmap. exists c. split; [done |]. by eapply list_elem_of_lookup_2. }
  destruct (startswith_b c.1) eqn:Hb.
  - rewrite decide_True; [done |]. by apply elem_of_bxxxx_columns.
  - rewrite decide_False; [done |]. intros [Hb' _]%elem_of_bxxxx_columns. congruence.
Qed.

Lemma renamed_table_form w table :
  columns (renamed_table w table)
  = (λ c, (if form_submit_button w && startswith_b c.1 then text_input w c.1 else c.1, c.2))
      <$> columns table.
Proof.
  unfold renamed_table.
  destruct (bool_decide (bxxxx_columns table ≠ [])) eqn:Hb; simpl.
  - destruct (form_submit_button w); simpl.
    + apply rename_form_columns.
    + rewrite <- (list_fmap_id (columns table)) at 1. apply list_fmap_ext.
      by intros i [s l] _.
  - rewrite <- (list_fmap_id (columns table)) at 1. apply list_fmap_ext.
    intros i c Hc. apply bool_decide_eq_false in Hb.
    destruct (startswith_b c.1) eqn:Hs; [| by rewrite andb_false_r; destruct c].
    exfalso. apply Hb. intros Hnil.
    assert (c.1 ∈ bxxxx_columns table) as Hin.
    { apply elem_of_bxxxx_columns. split; [done |]. apply list_elem_of_fmap.
      exists c. split; [done |]. by eapply list_elem_of_lookup_2. }
    rewrite Hnil in Hin. by apply elem_of_nil in Hin.
Qed.

(** X14. The form renames the columns whose label starts with "b", each to
    what its text input holds, and only in the run in which it is
    submitted; the number of rows, the data of every column and every other
    label are kept, and text inputs left at their defaults keep the table as
    it was. *)
Theorem renamed_table_columns (w : Widgets) (table : DataFrame) :
  nrows (renamed_table w table) = nrows table
  ∧ (columns (renamed_table w table)).*2 = (columns table).*2
  ∧ (columns (renamed_table w table)).*1
    = (λ c, if form_submit_button w && startswith_b c then text_input w c else c)
        <$> (columns table).*1
  ∧ ((∀ c, c ∈ bxxxx_columns table → text_input w c = c) →
     renamed_table w table = table).
Proof.
  pose proof (renamed_table_form w table) as Hcols.
  split; [| split; [| split]].
  - unfold renamed_table. by destruct (_ && _).
  - rewrite Hcols, <- list_fmap_compose. by apply list_fmap_ext.
  - rewrite Hcols, <- !list_fmap_compose. by apply list_fmap_ext.
  - intros Hdefault.
    assert (nrows (renamed_table w table) = nrows table) as Hn
      by (unfold renamed_table; by destruct (_ && _)).
    destruct (renamed_table w table) as [n cols], table as [n' cols']. simpl in *.
    subst n. f_equal. rewrite Hcols. rewrite <- (list_fmap_id cols') at 2.
    apply list_fmap_ext. intros i [s l] Hc. simpl.
    destruct (form_submit_button w && startswith_b s) eqn:Hb; [| done].
    apply andb_true_iff in Hb as [_ Hs]. rewrite Hdefault; [done |].
    apply elem_of_bxxxx_columns. split; [done |]. apply list_elem_of_fmap.
    exists (s, l). split; [done |]. by eapply list_elem_of_lookup_2.
Qed.

Lemma df_new_spec d st :
  frames (df_new d st).2 !! (df_new d st).1 = Some d
  ∧ conn (df_new d st).2 = conn st
  ∧ ∀ k, k ∈ dom (frames st) → frames (df_new d st).2 !! k = frames st !! k.
Proof.
  unfold df_new. simpl. split; [apply lookup_insert_eq |]. split; [done |].
  intros k Hk. rewrite lookup_insert_ne; [done |]. intros <-. by apply (is_fresh (dom (frames st))).
Qed.

Lemma df_new_dom d st k :
  k ∈ dom (frames st) → k ∈ dom (frames (df_new d st).2).
Proof.
  intros Hk. unfold df_new. simpl. rewrite dom_insert. set_solver.
Qed.

(** Where [main] stands before line 141: the table, renamed or not, is an
    object of the heap, and nothing else has changed. *)
Lemma main_reaches w o st table name rest :
  uploaded_file w = Some table → (columns table).*1 = name :: rest →
  ∃ l st1,
    frames st1 !! l = Some (renamed_table w table)
    ∧ conn st1 = conn st
    ∧ (∀ k, k ∈ dom (frames st) → frames st1 !! k = frames st !! k)
    ∧ main w o st =
      match columns_drop (renamed_table w table) name with
      | Raise e => (error_shown (Raised e), st1)
      | Ok feature_columns => select_and_apply w o l feature_columns st1
      end.
Proof.
  intros Hup Hlabels. unfold main. rewrite Hup.
  destruct (df_new table st) as [l0 st0] eqn:Hnew0.
  pose proof (df_new_spec table st) as (Hl0 & Hc0 & Hold0).
  pose proof (df_new_dom table st) as Hdom0.
  rewrite Hnew0 in Hl0, Hc0, Hold0, Hdom0. simpl in Hl0, Hc0, Hold0, Hdom0.
  rewrite Hlabels. unfold renamed_table.
  destruct (bool_decide (bxxxx_columns table ≠ []) && form_submit_button w).
  - destruct (df_new (rename table (new_column_names (text_input w) (bxxxx_columns table))) st0)
      as [l1 st1] eqn:Hnew1.
    pose proof (df_new_spec (rename table (new_column_names (text_input w)
                  (bxxxx_columns table))) st0) as (Hl1 & Hc1 & Hold1).
    rewrite Hnew1 in Hl1, Hc1, Hold1. simpl in Hl1, Hc1, Hold1.
    exists l1, st1. split; [done |]. split; [congruence |]. split; [| done].
    intros k Hk. rewrite Hold1; [by apply Hold0 | by apply Hdom0].
  - exists l0, st0. done.
Qed.

Lemma history_state st : (get_adjustment_history st).2 = st.
Proof. unfold get_adjustment_history. by destruct (closed (conn st)). Qed.

Lemma adjust_effect o l sel st d r st' :
  frames st !! l = Some d →
  adjust_dataframe o l sel st = (r, st') →
  (∀ k, k ∈ dom (frames st) → frames st' !! k = frames st !! k)
  ∧ (conn st' = conn st ∨ conn st' = inserted o (conn st))
  ∧ (closed (conn st) = true → r = Raise ProgrammingError ∧ conn st' = conn st).
Proof.
  intros Hd Hrun. split; [| split].
  - destruct (adjust_heap _ _ _ _ _ _ _ Hd Hrun) as [a ->].
    intros k Hk. rewrite lookup_insert_ne; [done |].
    intros <-. by apply (is_fresh (dom (frames st))).
  - revert Hrun. rewrite (adjust_run _ _ _ _ _ Hd). cbv zeta.
    destruct (closed (conn st)); [intros [= _ <-]; by left |].
    destruct (io_error o); intros [= _ <-]; [by left | by right].
  - intros Hc. revert Hrun. rewrite (adjust_run _ _ _ _ _ Hd). cbv zeta. rewrite Hc.
    by intros [= <- <-].
Qed.

Lemma select_and_apply_spec w o l fc st d :
  frames st !! l = Some d →
  (∀ k, k ∈ dom (frames st) → frames (select_and_apply w o l fc st).2 !! k = frames st !! k)
  ∧ (conn (select_and_apply w o l fc st).2 = conn st
     ∨ (apply_button w = true ∧ multiselect w fc ≠ []
        ∧ conn (select_and_apply w o l fc st).2 = inserted o (conn st)))
  ∧ (∀ adj v s, adjusted_data (select_and_apply w o l fc st).1 = Some (adj, v, s) →
       apply_button w = true ∧ multiselect w fc ≠ []
       ∧ adjust_dataframe o l (multiselect w fc) st
         = (Ok (adj, v, s), (select_and_apply w o l fc st).2))
  ∧ (closed (conn st) = true →
       error (select_and_apply w o l fc st).1 = Some (Raised ProgrammingError)
       ∧ adjusted_data (select_and_apply w o l fc st).1 = None
       ∧ history (select_and_apply w o l fc st).1 = None
       ∧ conn (select_and_apply w o l fc st).2 = conn st).
Proof.
  intros Hd. unfold select_and_apply, apply_random_adjustment.
  assert (∀ st0, closed (conn st0) = true →
            get_adjustment_history st0 = (Raise ProgrammingError, st0)) as Hclosed.
  { intros st0 Hc. unfold get_adjustment_history. by rewrite Hc. }
  destruct (apply_button w) eqn:Hb.
  - destruct (decide (multiselect w fc = [])) as [Hnil | Hsel].
    + cbn [mret StateExn_ret]. simpl.
      pose proof (history_state st) as Hh.
      destruct (get_adjustment_history st) as [[rows | e] st0] eqn:Hhist;
        simpl in Hh; subst st0; simpl.
      * split; [done |]. split; [by left |]. split; [done |].
        intros Hc. by rewrite (Hclosed st Hc) in Hhist.
      * split; [done |]. split; [by left |]. split; [done |].
        intros Hc. rewrite (Hclosed st Hc) in Hhist. by injection Hhist as <-.
    + rewrite bind_run.
      destruct (adjust_dataframe o l (multiselect w fc) st) as [[[[adj v] s] | e] st1] eqn:Hrun;
        destruct (adjust_effect _ _ _ _ _ _ _ Hd Hrun) as (Hold & Hconn & Hc1).
      * cbn [mret StateExn_ret]. simpl.
        pose proof (history_state st1) as Hh.
        destruct (get_adjustment_history st1) as [[rows | e] st0] eqn:Hhist;
          simpl in Hh; subst st0; simpl.
        -- split; [done |]. split; [destruct Hconn; [by left | right; done] |].
           split; [by intros ? ? ? [= <- <- <-] |].
           intros Hc. by destruct (Hc1 Hc).
        -- split; [done |]. split; [destruct Hconn; [by left | right; done] |].
           split; [by intros ? ? ? [= <- <- <-] |].
           intros Hc. by destruct (Hc1 Hc).
      * simpl. split; [done |]. split; [destruct Hconn; [by left | right; done] |].
        split; [done |]. intros Hc. by destruct (Hc1 Hc) as [[= ->] ?].
  - simpl. pose proof (history_state st) as Hh.
    destruct (get_adjustment_history st) as [[rows | e] st0] eqn:Hhist;
      simpl in Hh; subst st0; simpl.
    + split; [done |]. split; [by left |]. split; [done |].
      intros Hc. by rewrite (Hclosed st Hc) in Hhist.
    + split; [done |]. split; [by left |]. split; [done |].
      intros Hc. rewrite (Hclosed st Hc) in Hhist. by injection Hhist as <-.
Qed.

Lemma main_no_columns w o st table :
  uploaded_file w = Some table → (columns table).*1 = [] →
  main w o st = (error_shown IndexError, (df_new table st).2).
Proof.
  intros Hup Hlabels. unfold main. rewrite Hup.
  destruct (df_new table st) as [l0 st0]. by rewrite Hlabels.
Qed.

Lemma columns_drop_ok d label :
  label ∈ (columns d).*1 →
  columns_drop d label = Ok (filter (λ c, c ≠ label) (columns d).*1).
Proof. intros Hin. unfold columns_drop. by rewrite decide_True. Qed.

(** X15. A first column whose label does not start with "b" is never
    adjusted by a run: whatever is renamed and whichever of the offered
    features are selected, the table a run displays as adjusted has that
    column first, label and values as uploaded. *)
Theorem main_identifier_kept (w : Widgets) (o : Oracle) (st : State)
    (table : DataFrame) (name : string) (data : list cell)
    (rest : list (string * list cell)) (shown : Shown) (st' : State)
    (adj : nat) (magnitude : Q) (sign : string) :
  uploaded_file w = Some table →
  columns table = (name, data) :: rest →
  startswith_b name = false →
  (∀ options c, c ∈ multiselect w options → c ∈ options) →
  main w o st = (shown, st') →
  adjusted_data shown = Some (adj, magnitude, sign) →
  ∃ a' rest', frames st' !! adj = Some a' ∧ columns a' = (name, data) :: rest'.
Proof.
  intros Hup Hcols Hname Hsub Hmain Hshown.
  destruct (main_reaches w o st table name (rest.*1) Hup) as (l & st1 & Hl & _ & _ & Hrun).
  { by rewrite Hcols. }
  pose proof (renamed_table_form w table) as Hren. rewrite Hcols in Hren.
  rewrite fmap_cons in Hren. cbn [fst snd] in Hren.
  rewrite Hname, andb_false_r in Hren.
  rewrite columns_drop_ok in Hrun by (rewrite Hren; by left).
  rewrite Hmain in Hrun.
  destruct (select_and_apply_spec w o l
              (filter (λ c, c ≠ name) (columns (renamed_table w table)).*1) st1 _ Hl)
    as (_ & _ & Hadj & _).
  rewrite <- Hrun in Hadj. simpl in Hadj.
  destruct (Hadj adj magnitude sign Hshown) as (_ & _ & Hcall).
  destruct (adjust_ok_inv _ _ _ _ _ _ _ _ _ Hl Hcall)
    as (_ & _ & _ & _ & _ & a' & Hcells & ->).
  destruct (adjusted_frame_shape _ _ _ _ _ Hcells) as [_ Hrel].
  rewrite Hren in Hrel.
  apply Forall2_cons_inv_l in Hrel as (c' & rest' & (_ & _ & Hsame) & _ & Hcols').
  exists a', rest'. simpl. split; [apply lookup_insert_eq |].
  rewrite Hcols', Hsame; [done |]. simpl.
  intros Hin%Hsub. apply list_elem_of_filter in Hin as [Hne _]. done.
Qed.

Lemma main_identifier_kept_witness :
  uploaded_file sample_widgets = Some sample_frame
  ∧ columns sample_frame
    = ("id", [Text "r1"; Text "r2"])
      :: [("f1", [Num (2 # 100); Num (97 # 100)]); ("f2", [Num (1 # 2); Num (1 # 2)])]
  ∧ startswith_b "id" = false
  ∧ (∀ options c, c ∈ multiselect sample_widgets options → c ∈ options)
  ∧ main sample_widgets (sample_oracle 1) sample_state
    = ((main sample_widgets (sample_oracle 1) sample_state).1,
       (main sample_widgets (sample_oracle 1) sample_state).2)
  ∧ adjusted_data (main sample_widgets (sample_oracle 1) sample_state).1
    = Some (2, drawn_value (sample_oracle 1), "-")
  ∧ ∃ a' rest',
      frames (main sample_widgets (sample_oracle 1) sample_state).2 !! 2 = Some a'
      ∧ columns a' = ("id", [Text "r1"; Text "r2"]) :: rest'.
Proof.
  assert (∀ options c, c ∈ multiselect sample_widgets options → c ∈ options) as Hsub
    by (intros options c Hc; exact Hc).
  split; [reflexivity |]. split; [reflexivity |]. split; [reflexivity |].
  split; [exact Hsub |]. split; [apply surjective_pairing |]. split; [reflexivity |].
  exact (main_identifier_kept sample_widgets (sample_oracle 1) sample_state sample_frame
           "id" [Text "r1"; Text "r2"] _ _ _ 2 (drawn_value (sample_oracle 1)) "-"
           eq_refl eq_refl eq_refl Hsub (surjective_pairing _) eq_refl).
Defined.

(** X16. Renaming the first column breaks the run: when its label starts
    with "b", the submitted form gives it another name and no column ends up
    with the old one, line 141 raises KeyError; the run shows the error and
    neither a table nor the history, and the store is as it was. *)
Theorem main_first_column_renamed (w : Widgets) (o : Oracle) (st : State)
    (table : DataFrame) (name : string) (data : list cell)
    (rest : list (string * list cell)) :
  uploaded_file w = Some table →
  columns table = (name, data) :: rest →
  startswith_b name = true →
  form_submit_button w = true →
  (∀ c, c ∈ (columns table).*1 →
        (if startswith_b c then text_input w c else c) ≠ name) →
  (main w o st).1 = error_shown (Raised KeyError)
  ∧ conn (main w o st).2 = conn st.
Proof.
  intros Hup Hcols Hname Hsubmit Hfresh.
  destruct (main_reaches w o st table name (rest.*1) Hup) as (l & st1 & _ & Hconn & _ & Hrun).
  { by rewrite Hcols. }
  assert (columns_drop (renamed_table w table) name = Raise KeyError) as Hdrop.
  { unfold columns_drop. rewrite decide_False; [done |].
    rewrite (renamed_table_form w table), <- list_fmap_compose.
    intros (c & Hc & Hin)%list_elem_of_fmap. simpl in Hc. rewrite Hsubmit in Hc. simpl in Hc.
    apply (Hfresh c.1); [| done].
    apply list_elem_of_fmap. by exists c. }
  rewrite Hdrop in Hrun. by rewrite Hrun.
Qed.

Lemma main_first_column_renamed_witness :
  uploaded_file renaming_widgets = Some barcode_frame
  ∧ columns barcode_frame = ("barcode", [Text "r1"]) :: [("b1", [Num (1 # 2)])]
  ∧ startswith_b "barcode" = true
  ∧ form_submit_button renaming_widgets = true
  ∧ (∀ c, c ∈ (columns barcode_frame).*1 →
          (if startswith_b c then text_input renaming_widgets c else c) ≠ "barcode")
  ∧ (main renaming_widgets (sample_oracle 1) sample_state).1 = error_shown (Raised KeyError)
  ∧ conn (main renaming_widgets (sample_oracle 1) sample_state).2 = conn sample_state.
Proof.
  assert (∀ c, c ∈ (columns barcode_frame).*1 →
            (if startswith_b c then text_input renaming_widgets c else c) ≠ "barcode") as Hfresh.
  { intros c Hc. simpl in Hc.
    apply elem_of_cons in Hc as [-> | Hc]; [by vm_compute |].
    apply list_elem_of_singleton in Hc as ->. by vm_compute. }
  split; [reflexivity |]. split; [reflexivity |]. split; [reflexivity |].
  split; [reflexivity |]. split; [exact Hfresh |].
  exact (main_first_column_renamed renaming_widgets (sample_oracle 1) sample_state
           barcode_frame "barcode" [Text "r1"] _ eq_refl eq_refl eq_refl eq_refl Hfresh).
Defined.


(** X18. Once the connection is closed, every run on an uploaded file ends
    in an error message and shows neither an adjusted table nor the
    history, and the store stays as it is. *)
Theorem main_closed_store (w : Widgets) (o : Oracle) (st : State) (table : DataFrame) :
  closed (conn st) = true →
  uploaded_file w = Some table →
  is_Some (error (main w o st).1)
  ∧ adjusted_data (main w o st).1 = None
  ∧ history (main w o st).1 = None
  ∧ conn (main w o st).2 = conn st.
Proof.
  intros Hclosed Hup.
  destruct ((columns table).*1) as [| name labels] eqn:Hlabels.
  - rewrite (main_no_columns w o st table Hup Hlabels). simpl. eauto.
  - destruct (main_reaches w o st table name labels Hup Hlabels)
      as (l & st1 & Hl & Hconn & _ & ->).
    destruct (columns_drop (renamed_table w table) name) as [fc | e].
    + destruct (select_and_apply_spec w o l fc st1 _ Hl) as (_ & _ & _ & Hc).
      rewrite Hconn in Hc. destruct (Hc Hclosed) as (-> & -> & -> & ->). eauto.
    + simpl. eauto.
Qed.

Lemma main_closed_store_witness :
  closed (conn closed_state) = true
  ∧ uploaded_file sample_widgets = Some sample_frame
  ∧ error (main sample_widgets (sample_oracle 1) closed_state).1
    = Some (Raised ProgrammingError)
  ∧ is_Some (error (main sample_widgets (sample_oracle 1) closed_state).1)
  ∧ adjusted_data (main sample_widgets (sample_oracle 1) closed_state).1 = None
  ∧ history (main sample_widgets (sample_oracle 1) closed_state).1 = None
  ∧ conn (main sample_widgets (sample_oracle 1) closed_state).2 = conn closed_state.
Proof.
  split; [reflexivity |]. split; [reflexivity |]. split; [reflexivity |].
  exact (main_closed_store sample_widgets (sample_oracle 1) closed_state sample_frame
           eq_refl eq_refl).
Defined.
